(** * The orchestration engine of the voice-assistant client
    (src/application.py, class [Application])

    A shallow embedding of the device state machine, the cross-thread task
    scheduler, the event dispatch loop, the audio triggers and the abort,
    manual-listen, toggle, end-of-reply and network-error flows, with the
    properties the specification states about them and further properties
    read off the code; and of the volume, redraw and shortcut logic of the
    displays (src/display).

    Modelling conventions.
    - [App] holds the attributes of the [Application] object.  A collaborator
      attribute ([protocol], [display], [audio_codec], [wake_word_detector])
      is kept as a boolean: whether it is bound (truthy) or [None]; it is
      tested exactly where the source tests it, and taken to be bound where
      the source dereferences it without a test.
    - Every call on a collaborator, every logger call, every [time.sleep],
      every thread start, every call of [schedule] and every assignment to
      the four session variables
      ([device_state], [aborted], [keep_listening], [is_tts_playing]) is
      appended to [trace], in program order.
    - What a collaborator answers is not in the repository: it is read from a
      [World], whose answers may depend on the whole history so far.  A call
      may raise exactly where the source wraps it in [try]/[except]; the
      outcome is then an [Outcome].
    - Closures handed to [schedule] are the constructors of [Task]; the
      targets of [threading.Thread] are the constructors of [ThreadBody].  A
      started thread is an effect; its body is a program of its own, run
      when the scenario says so.
    - An operation runs without interruption, except in [Scheduler], where
      [schedule] and the drain are cut at their atomic steps and
      interleaved. *)

From Stdlib Require Import List String Bool Arith ZArith Lia.
From Stdlib Require Import RelationClasses Relation_Operators.
Import ListNotations.
Local Open Scope string_scope.
Local Open Scope list_scope.

(** ** Enumerations *)

(** Modelled from the spec: the enum [DeviceState] of
    src/constants/constants.py (not in the repository snapshot), section 3:
    [IDLE | CONNECTING | LISTENING | SPEAKING]. *)
Inductive DeviceState : Type := IDLE | CONNECTING | LISTENING | SPEAKING.

(** Modelled from the spec: the enum [EventType] of
    src/constants/constants.py, with the member names application.py uses. *)
Inductive EventType : Type :=
  SCHEDULE_EVENT | AUDIO_INPUT_READY_EVENT | AUDIO_OUTPUT_READY_EVENT.

(** Modelled from the spec: the enum [ListeningMode] of
    src/constants/constants.py, section 3: [MANUAL | AUTO_STOP]. *)
Inductive ListeningMode : Type := MANUAL | AUTO_STOP.

(** Modelled from the spec: the enum [AbortReason] of
    src/constants/constants.py, section 3: [NONE | WAKE_WORD_DETECTED]. *)
Inductive AbortReason : Type := NONE | WAKE_WORD_DETECTED.

(** [==] on the enumerations. *)
Definition DeviceState_eqb (x y : DeviceState) : bool :=
  match x, y with
  | IDLE, IDLE | CONNECTING, CONNECTING
  | LISTENING, LISTENING | SPEAKING, SPEAKING => true
  | _, _ => false
  end.

Definition EventType_eqb (x y : EventType) : bool :=
  match x, y with
  | SCHEDULE_EVENT, SCHEDULE_EVENT
  | AUDIO_INPUT_READY_EVENT, AUDIO_INPUT_READY_EVENT
  | AUDIO_OUTPUT_READY_EVENT, AUDIO_OUTPUT_READY_EVENT => true
  | _, _ => false
  end.

Definition AbortReason_eqb (x y : AbortReason) : bool :=
  match x, y with
  | NONE, NONE | WAKE_WORD_DETECTED, WAKE_WORD_DETECTED => true
  | _, _ => false
  end.

(** ** Closures, threads, coroutines *)

(** The zero-argument callables that the modelled code passes to
    [schedule]. *)
Inductive Task : Type :=
| TSetDeviceState (s : DeviceState)   (* lambda: self.set_device_state(s) *)
| TStartListeningImpl                 (* self._start_listening_impl *)
| TStopListeningImpl                  (* self._stop_listening_impl *)
| TToggleChatState                    (* lambda: self.toggle_chat_state() *)
| TToggleChatStateImpl                (* self._toggle_chat_state_impl *)
| THandleTtsStart                     (* lambda: self._handle_tts_start() *)
| THandleWakeWordDetected (wake_word : string).

(** The targets of the [threading.Thread] objects the modelled code starts. *)
Inductive ThreadBody : Type :=
| ThProcessAbort (reason : AbortReason)  (* process_abort in abort_speaking *)
| ThConnectAndListen                     (* in _toggle_chat_state_impl *)
| ThCloseAudioChannel.                   (* in _toggle_chat_state_impl *)

(** The coroutines handed to [asyncio.run_coroutine_threadsafe]. *)
Inductive Coroutine : Type :=
| SendAudio (frame : string)
| OpenAudioChannel
| CloseAudioChannel
| SendStartListening (mode : ListeningMode)
| SendStopListening
| SendAbortSpeaking (reason : AbortReason)
| SendIotStates (states_json : string)
| ConnectAndStartListening (wake_word : string).

(** A state-change subscriber, named by a number. *)
Definition Callback : Type := nat.

(** The level of a log record. *)
Inductive LogLevel : Type := DEBUG | INFO | WARNING | ERROR.

(** An argument of a log record or of an f-string. *)
Inductive LogArg : Type :=
| AStr (s : string)
| ANat (n : nat)
| AEvent (e : EventType)
| AReason (r : AbortReason).

(** ** The trace *)

(** What the application does that can be seen from outside, and the
    assignments to its session variables. *)
Inductive Effect : Type :=
| Log (level : LogLevel) (template : string) (args : list LogArg)
| Sleep (milliseconds : Z)                        (* time.sleep *)
| Scheduled (task : Task)                         (* self.schedule(task) *)
| ThreadStart (body : ThreadBody)                 (* Thread(...).start() *)
| Submit (c : Coroutine)              (* asyncio.run_coroutine_threadsafe *)
| AwaitResult (c : Coroutine) (timeout_ms : Z)    (* future.result(timeout) *)
| CallbackCall (cb : Callback) (s : DeviceState)  (* callback(state) *)
| AssignDeviceState (s : DeviceState)             (* self.device_state = s *)
| AssignAborted (b : bool)                        (* self.aborted = b *)
| AssignKeepListening (b : bool)                  (* self.keep_listening = b *)
| AssignIsTtsPlaying (b : bool)     (* self.is_tts_playing = b, under lock *)
| DisplayUpdateStatus (text : string)
| DisplayUpdateText (text : string)
| DisplayUpdateEmotion (path : string)
| WakeWordPause
| WakeWordResume
| CodecClearAudioQueue
| CodecResumeInput
| CodecReadAudio
| CodecPlayAudio
| CodecWriteAudio (data : string)
| CodecReinitializeInputStream
| CodecReinitializeOutputStream
| OutputStreamStartStream
| ThingManagerGetStatesJson (delta : option bool).

(** The history, oldest effect first. *)
Definition Trace : Type := list Effect.

(** The result of a call the source guards with [try]/[except]. *)
Inductive Outcome (A : Type) : Type :=
| Returned (a : A)
| Raised (message : string).
Arguments Returned {A} a.
Arguments Raised {A} message.

(** ** The collaborators *)

(** The answers of the display, the protocol, the audio codec, the
    wake-word detector, the subscribers and the thing manager, each as a
    function of the history at the time of the question. *)
Record World : Type := mkWorld {
  (* str(emotion_dir / (name + ".gif")) in _get_current_emotion *)
  emotion_gif : string -> string;
  (* hasattr(self.wake_word_detector, 'paused') / (..., 'is_running') *)
  wwd_hasattr_paused : bool;
  wwd_hasattr_is_running : bool;
  (* self.wake_word_detector.paused / .is_running() *)
  wwd_paused : Trace -> bool;
  wwd_is_running : Trace -> bool;
  (* self.audio_codec.is_input_paused() *)
  codec_is_input_paused : Trace -> bool;
  (* self.audio_codec.read_audio(): an encoded frame or None *)
  codec_read_audio : Trace -> option string;
  (* self.audio_codec._reinitialize_input_stream() *)
  codec_reinitialize_input_stream : Trace -> Outcome unit;
  (* self.audio_codec.output_stream is truthy *)
  codec_output_stream : Trace -> bool;
  (* self.audio_codec.output_stream.is_active() *)
  output_stream_is_active : Trace -> bool;
  (* self.audio_codec.output_stream.start_stream() *)
  output_stream_start_stream : Trace -> Outcome unit;
  (* self.audio_codec._reinitialize_output_stream() *)
  codec_reinitialize_output_stream : Trace -> Outcome unit;
  (* self.audio_codec.audio_decode_queue.empty() *)
  audio_decode_queue_empty : Trace -> bool;
  (* self.protocol.is_audio_channel_opened() *)
  is_audio_channel_opened : Trace -> bool;
  (* future.result(timeout=...): the coroutine's value, or an exception
     (a timeout among them) *)
  future_result : Coroutine -> Z -> Trace -> Outcome bool;
  (* callback(state) for a state-change subscriber *)
  callback_result : Callback -> DeviceState -> Trace -> Outcome unit;
  (* thing_manager.get_states_json(delta=...): (changed, states_json);
     get_states_json_str() when delta is None *)
  thing_manager_states : option bool -> Trace -> bool * string
}.

(** ** The application object *)

(** The attributes of [Application] that the modelled code reads or writes,
    and the trace. *)
Record App : Type := mkApp {
  device_state : DeviceState;
  keep_listening : bool;
  aborted : bool;
  current_text : string;
  current_emotion : string;
  (* _last_emotion and _last_emotion_path; None until the first
     _get_current_emotion (the hasattr test) *)
  last_emotion : option (string * string);
  audio_codec : bool;
  is_tts_playing : bool;
  running : bool;
  main_tasks : list Task;
  protocol : bool;
  on_state_changed_callbacks : list Callback;
  (* self.events: three threading.Event flags *)
  schedule_event : bool;
  audio_input_ready_event : bool;
  audio_output_ready_event : bool;
  display : bool;
  wake_word_detector : bool;
  trace : Trace
}.

(** [__init__]: the attribute values of a fresh [Application]. *)
Definition init_app : App :=
  {| device_state := IDLE; keep_listening := false; aborted := false;
     current_text := ""; current_emotion := "neutral"; last_emotion := None;
     audio_codec := false; is_tts_playing := false; running := false;
     main_tasks := []; protocol := false; on_state_changed_callbacks := [];
     schedule_event := false; audio_input_ready_event := false;
     audio_output_ready_event := false; display := false;
     wake_word_detector := false; trace := [] |}.

(** Attribute assignment, one function per attribute. *)
Definition with_device_state (v : DeviceState) (a : App) : App :=
  mkApp v (keep_listening a) (aborted a) (current_text a) (current_emotion a)
    (last_emotion a) (audio_codec a) (is_tts_playing a) (running a)
    (main_tasks a) (protocol a) (on_state_changed_callbacks a)
    (schedule_event a) (audio_input_ready_event a)
    (audio_output_ready_event a) (display a) (wake_word_detector a) (trace a).

Definition with_keep_listening (v : bool) (a : App) : App :=
  mkApp (device_state a) v (aborted a) (current_text a) (current_emotion a)
    (last_emotion a) (audio_codec a) (is_tts_playing a) (running a)
    (main_tasks a) (protocol a) (on_state_changed_callbacks a)
    (schedule_event a) (audio_input_ready_event a)
    (audio_output_ready_event a) (display a) (wake_word_detector a) (trace a).

Definition with_aborted (v : bool) (a : App) : App :=
  mkApp (device_state a) (keep_listening a) v (current_text a)
    (current_emotion a) (last_emotion a) (audio_codec a) (is_tts_playing a)
    (running a) (main_tasks a) (protocol a) (on_state_changed_callbacks a)
    (schedule_event a) (audio_input_ready_event a)
    (audio_output_ready_event a) (display a) (wake_word_detector a) (trace a).

Definition with_current_text (v : string) (a : App) : App :=
  mkApp (device_state a) (keep_listening a) (aborted a) v (current_emotion a)
    (last_emotion a) (audio_codec a) (is_tts_playing a) (running a)
    (main_tasks a) (protocol a) (on_state_changed_callbacks a)
    (schedule_event a) (audio_input_ready_event a)
    (audio_output_ready_event a) (display a) (wake_word_detector a) (trace a).

Definition with_current_emotion (v : string) (a : App) : App :=
  mkApp (device_state a) (keep_listening a) (aborted a) (current_text a) v
    (last_emotion a) (audio_codec a) (is_tts_playing a) (running a)
    (main_tasks a) (protocol a) (on_state_changed_callbacks a)
    (schedule_event a) (audio_input_ready_event a)
    (audio_output_ready_event a) (display a) (wake_word_detector a) (trace a).

Definition with_last_emotion (v : option (string * string)) (a : App) : App :=
  mkApp (device_state a) (keep_listening a) (aborted a) (current_text a)
    (current_emotion a) v (audio_codec a) (is_tts_playing a) (running a)
    (main_tasks a) (protocol a) (on_state_changed_callbacks a)
    (schedule_event a) (audio_input_ready_event a)
    (audio_output_ready_event a) (display a) (wake_word_detector a) (trace a).

Definition with_is_tts_playing (v : bool) (a : App) : App :=
  mkApp (device_state a) (keep_listening a) (aborted a) (current_text a)
    (current_emotion a) (last_emotion a) (audio_codec a) v (running a)
    (main_tasks a) (protocol a) (on_state_changed_callbacks a)
    (schedule_event a) (audio_input_ready_event a)
    (audio_output_ready_event a) (display a) (wake_word_detector a) (trace a).

Definition with_running (v : bool) (a : App) : App :=
  mkApp (device_state a) (keep_listening a) (aborted a) (current_text a)
    (current_emotion a) (last_emotion a) (audio_codec a) (is_tts_playing a) v
    (main_tasks a) (protocol a) (on_state_changed_callbacks a)
    (schedule_event a) (audio_input_ready_event a)
    (audio_output_ready_event a) (display a) (wake_word_detector a) (trace a).

Definition with_main_tasks (v : list Task) (a : App) : App :=
  mkApp (device_state a) (keep_listening a) (aborted a) (current_text a)
    (current_emotion a) (last_emotion a) (audio_codec a) (is_tts_playing a)
    (running a) v (protocol a) (on_state_changed_callbacks a)
    (schedule_event a) (audio_input_ready_event a)
    (audio_output_ready_event a) (display a) (wake_word_detector a) (trace a).

Definition with_callbacks (v : list Callback) (a : App) : App :=
  mkApp (device_state a) (keep_listening a) (aborted a) (current_text a)
    (current_emotion a) (last_emotion a) (audio_codec a) (is_tts_playing a)
    (running a) (main_tasks a) (protocol a) v
    (schedule_event a) (audio_input_ready_event a)
    (audio_output_ready_event a) (display a) (wake_word_detector a) (trace a).

Definition with_trace (v : Trace) (a : App) : App :=
  mkApp (device_state a) (keep_listening a) (aborted a) (current_text a)
    (current_emotion a) (last_emotion a) (audio_codec a) (is_tts_playing a)
    (running a) (main_tasks a) (protocol a) (on_state_changed_callbacks a)
    (schedule_event a) (audio_input_ready_event a)
    (audio_output_ready_event a) (display a) (wake_word_detector a) v.

(** [self.events[et].is_set()] *)
Definition is_set (et : EventType) (a : App) : bool :=
  match et with
  | SCHEDULE_EVENT => schedule_event a
  | AUDIO_INPUT_READY_EVENT => audio_input_ready_event a
  | AUDIO_OUTPUT_READY_EVENT => audio_output_ready_event a
  end.

(** [self.events[et].set()] when [v] is true, [.clear()] when false. *)
Definition with_event (et : EventType) (v : bool) (a : App) : App :=
  match et with
  | SCHEDULE_EVENT =>
      mkApp (device_state a) (keep_listening a) (aborted a) (current_text a)
        (current_emotion a) (last_emotion a) (audio_codec a)
        (is_tts_playing a) (running a) (main_tasks a) (protocol a)
        (on_state_changed_callbacks a) v (audio_input_ready_event a)
        (audio_output_ready_event a) (display a) (wake_word_detector a)
        (trace a)
  | AUDIO_INPUT_READY_EVENT =>
      mkApp (device_state a) (keep_listening a) (aborted a) (current_text a)
        (current_emotion a) (last_emotion a) (audio_codec a)
        (is_tts_playing a) (running a) (main_tasks a) (protocol a)
        (on_state_changed_callbacks a) (schedule_event a) v
        (audio_output_ready_event a) (display a) (wake_word_detector a)
        (trace a)
  | AUDIO_OUTPUT_READY_EVENT =>
      mkApp (device_state a) (keep_listening a) (aborted a) (current_text a)
        (current_emotion a) (last_emotion a) (audio_codec a)
        (is_tts_playing a) (running a) (main_tasks a) (protocol a)
        (on_state_changed_callbacks a) (schedule_event a)
        (audio_input_ready_event a) v (display a) (wake_word_detector a)
        (trace a)
  end.

(** ** A state monad over [App] *)

(** A program: from the object to a value and the object it leaves. *)
Definition M (A : Type) : Type := App -> A * App.

(** Return a value, leaving the object as it is. *)
Definition ret {A : Type} (x : A) : M A := fun a => (x, a).

(** Run [m], then [k] on its value and on the object it left. *)
Definition bind {A B : Type} (m : M A) (k : A -> M B) : M B :=
  fun a => let (x, a') := m a in k x a'.

Declare Scope app_scope.
Delimit Scope app_scope with app.
Notation "x <- m ;; k" := (bind m (fun x => k))
  (at level 61, m at next level, right associativity) : app_scope.
Notation "m ;; k" := (bind m (fun _ => k))
  (at level 61, right associativity) : app_scope.
Local Open Scope app_scope.

(** Read an attribute. *)
Definition get {A : Type} (f : App -> A) : M A := fun a => (f a, a).

(** Update the object. *)
Definition modify (f : App -> App) : M unit := fun a => (tt, f a).

(** Record an effect. *)
Definition emit (e : Effect) : M unit :=
  modify (fun a => with_trace (trace a ++ [e]) a).

(** Ask a collaborator, whose answer may depend on the history. *)
Definition ask {A : Type} (q : Trace -> A) : M A := fun a => (q (trace a), a).

(** [pass], and a [return] with no value. *)
Definition pass : M unit := ret tt.

(** [if b: m] *)
Definition when (b : bool) (m : M unit) : M unit := if b then m else pass.

(** [for x in l: body(x)] *)
Fixpoint for_each {A : Type} (l : list A) (body : A -> M unit) : M unit :=
  match l with
  | [] => pass
  | x :: l' => body x ;; for_each l' body
  end.

(** The object after running [m]. *)
Definition exec {A : Type} (m : M A) (a : App) : App := snd (m a).

(** ** The operations of [Application] *)

Section Application.

Variable w : World.

(** [set_is_tts_playing]: the assignment under [_tts_lock]. *)
Definition set_is_tts_playing (value : bool) : M unit :=
  modify (with_is_tts_playing value) ;;
  emit (AssignIsTtsPlaying value).

(** [schedule]: append under [mutex], then set the SCHEDULE flag. *)
Definition schedule (callback : Task) : M unit :=
  emit (Scheduled callback) ;;
  modify (fun a => with_main_tasks (main_tasks a ++ [callback]) a) ;;
  modify (with_event SCHEDULE_EVENT true).

(** [on_state_changed] *)
Definition on_state_changed (callback : Callback) : M unit :=
  modify (fun a =>
    with_callbacks (on_state_changed_callbacks a ++ [callback]) a).

(** The keys of the [emotions] dictionary of [_get_current_emotion]. *)
Definition emotions : list string :=
  ["neutral"; "happy"; "laughing"; "funny"; "sad"; "angry"; "crying";
   "loving"; "embarrassed"; "surprised"; "shocked"; "thinking"; "winking";
   "cool"; "relaxed"; "delicious"; "kissy"; "confident"; "sleepy"; "silly";
   "confused"].

(** [emotions.get(current_emotion, str(emotion_dir / "neutral.gif"))] *)
Definition emotions_get (emotion : string) : string :=
  if existsb (String.eqb emotion) emotions
  then emotion_gif w emotion
  else emotion_gif w "neutral".

(** [_get_current_emotion], with its one-entry cache. *)
Definition _get_current_emotion : M string :=
  cur <- get current_emotion ;;
  last <- get last_emotion ;;
  let recompute : M string :=
    let path := emotions_get cur in
    modify (with_last_emotion (Some (cur, path))) ;;
    emit (Log DEBUG "Emotion path: {}" [AStr path]) ;;
    ret path in
  match last with
  | Some (e, path) => if String.eqb e cur then ret path else recompute
  | None => recompute
  end.

(** [set_emotion] *)
Definition set_emotion (emotion : string) : M unit :=
  modify (with_current_emotion emotion) ;;
  d <- get display ;;
  when d (path <- _get_current_emotion ;; emit (DisplayUpdateEmotion path)).

(** [set_chat_message] *)
Definition set_chat_message (role message : string) : M unit :=
  modify (with_current_text message) ;;
  d <- get display ;;
  when d (emit (DisplayUpdateText message)).

(** [alert] *)
Definition alert (title message : string) : M unit :=
  emit (Log WARNING "Warning: {}, {}" [AStr title; AStr message]) ;;
  d <- get display ;;
  when d (emit (DisplayUpdateText (title ++ ": " ++ message)%string)).

(** [_update_iot_states] *)
Definition _update_iot_states (delta : option bool) : M unit :=
  emit (ThingManagerGetStatesJson delta) ;;
  r <- ask (thing_manager_states w delta) ;;
  let (changed, states_json) := r in
  match delta with
  | None =>
      emit (Submit (SendIotStates states_json)) ;;
      emit (Log INFO "IoT device status updated" [])
  | Some d =>
      if negb d || changed then
        emit (Submit (SendIotStates states_json)) ;;
        (if d
         then emit (Log INFO "IoT device status updated (incremental)" [])
         else emit (Log INFO "IoT device status updated (full)" []))
      else emit (Log DEBUG "IoT device status unchanged, skipping update" [])
  end.

(** [self.wake_word_detector and hasattr(..., 'paused') and
    self.wake_word_detector.paused] *)
Definition wake_word_paused : M bool :=
  d <- get wake_word_detector ;;
  p <- ask (wwd_paused w) ;;
  ret (d && wwd_hasattr_paused w && p).

(** [self.wake_word_detector and hasattr(..., 'is_running') and
    self.wake_word_detector.is_running()] *)
Definition wake_word_running : M bool :=
  d <- get wake_word_detector ;;
  r <- ask (wwd_is_running w) ;;
  ret (d && wwd_hasattr_is_running w && r).

(** [self.audio_codec and self.audio_codec.is_input_paused()] *)
Definition input_paused : M bool :=
  c <- get audio_codec ;;
  p <- ask (codec_is_input_paused w) ;;
  ret (c && p).

(** The branch of [set_device_state] that runs after the assignment:
    "Execute corresponding operations based on state". *)
Definition entry_actions (state : DeviceState) : M unit :=
  match state with
  | IDLE =>
      emit (DisplayUpdateStatus "Standby") ;;
      set_emotion "neutral" ;;
      p <- wake_word_paused ;;
      when p (emit WakeWordResume ;;
              emit (Log INFO "Wake word detection resumed" [])) ;;
      i <- input_paused ;;
      when i (emit CodecResumeInput)
  | CONNECTING =>
      emit (DisplayUpdateStatus "Connecting...")
  | LISTENING =>
      emit (DisplayUpdateStatus "Listening...") ;;
      set_emotion "neutral" ;;
      _update_iot_states (Some true) ;;
      r <- wake_word_running ;;
      when r (emit WakeWordPause ;;
              emit (Log INFO "Wake word detection paused" [])) ;;
      i <- input_paused ;;
      when i (emit CodecResumeInput)
  | SPEAKING =>
      emit (DisplayUpdateStatus "Speaking...") ;;
      p <- wake_word_paused ;;
      when p (emit WakeWordResume)
  end.

(** One turn of "Notify state change": [callback(state)] in its
    [try]/[except]. *)
Definition notify (state : DeviceState) (callback : Callback) : M unit :=
  emit (CallbackCall callback state) ;;
  r <- ask (callback_result w callback state) ;;
  match r with
  | Returned _ => pass
  | Raised e =>
      emit (Log ERROR "Error executing state change callback: {}" [AStr e])
  end.

(** [set_device_state] *)
Definition set_device_state (state : DeviceState) : M unit :=
  cur <- get device_state ;;
  if DeviceState_eqb cur state then pass
  else
    modify (with_device_state state) ;;
    emit (AssignDeviceState state) ;;
    entry_actions state ;;
    callbacks <- get on_state_changed_callbacks ;;
    for_each callbacks (notify state).

(** [abort_speaking] *)
Definition abort_speaking (reason : AbortReason) : M unit :=
  ab <- get aborted ;;
  if ab then
    emit (Log DEBUG "Already aborted, ignoring repeated abort request: {}"
              [AReason reason])
  else
    emit (Log INFO "Stop speech output, reason: {}" [AReason reason]) ;;
    modify (with_aborted true) ;;
    emit (AssignAborted true) ;;
    set_is_tts_playing false ;;
    c <- get audio_codec ;;
    when c (emit CodecClearAudioQueue) ;;
    d <- get wake_word_detector ;;
    when (AbortReason_eqb reason WAKE_WORD_DETECTED && d)
      (r <- ask (wwd_is_running w) ;;
       when (wwd_hasattr_is_running w && r)
         (emit WakeWordPause ;;
          emit (Log DEBUG
            "Temporarily pause wake word detector to avoid concurrent processing"
            []) ;;
          emit (Sleep 100))) ;;
    emit (ThreadStart (ThProcessAbort reason)).

(** [process_abort], the body of the thread [abort_speaking] starts. *)
Definition process_abort (reason : AbortReason) : M unit :=
  emit (Submit (SendAbortSpeaking reason)) ;;
  emit (AwaitResult (SendAbortSpeaking reason) 1000) ;;
  r <- ask (future_result w (SendAbortSpeaking reason) 1000) ;;
  match r with
  | Returned _ => pass
  | Raised e => emit (Log ERROR "Error sending abort command: {}" [AStr e])
  end ;;
  schedule (TSetDeviceState IDLE) ;;
  kl <- get keep_listening ;;
  opened <- ask (is_audio_channel_opened w) ;;
  when (AbortReason_eqb reason WAKE_WORD_DETECTED && kl && opened)
    (emit (Sleep 100) ;;
     schedule TToggleChatState).

(** [_start_listening_impl] *)
Definition _start_listening_impl : M unit :=
  p <- get protocol ;;
  if negb p then emit (Log ERROR "Protocol not initialized" [])
  else
    modify (with_keep_listening false) ;;
    emit (AssignKeepListening false) ;;
    d <- get wake_word_detector ;;
    when d (emit WakeWordPause) ;;
    s <- get device_state ;;
    match s with
    | IDLE =>
        (* the code after the "Try to open audio channel" block *)
        let channel_is_open : M unit :=
          c <- get audio_codec ;;
          r <- (if c then
                  emit CodecReinitializeInputStream ;;
                  ask (codec_reinitialize_input_stream w)
                else
                  emit (Log WARNING
                    "Cannot force reinitialization, audio_codec is None." []) ;;
                  ret (Returned tt)) ;;
          match r with
          | Raised e =>
              emit (Log ERROR "Forced reinitialization failed: {}" [AStr e]) ;;
              schedule (TSetDeviceState IDLE) ;;
              wd <- get wake_word_detector ;;
              paused <- ask (wwd_paused w) ;;
              when (wd && paused) (emit WakeWordResume)
          | Returned _ =>
              emit (Submit (SendStartListening MANUAL)) ;;
              schedule (TSetDeviceState LISTENING)
          end in
        schedule (TSetDeviceState CONNECTING) ;;
        opened <- ask (is_audio_channel_opened w) ;;
        if opened then channel_is_open
        else
          emit (Submit OpenAudioChannel) ;;
          emit (AwaitResult OpenAudioChannel 10000) ;;
          r <- ask (future_result w OpenAudioChannel 10000) ;;
          match r with
          | Returned true => channel_is_open
          | Returned false =>
              alert "Error" "Failed to open audio channel" ;;
              schedule (TSetDeviceState IDLE)
          | Raised e =>
              emit (Log ERROR "Error occurred when opening audio channel: {}"
                        [AStr e]) ;;
              alert "Error" ("Failed to open audio channel: " ++ e)%string ;;
              schedule (TSetDeviceState IDLE)
          end
    | SPEAKING =>
        ab <- get aborted ;;
        when (negb ab) (abort_speaking WAKE_WORD_DETECTED)
    | _ => pass
    end.

(** [start_listening] *)
Definition start_listening : M unit := schedule TStartListeningImpl.

(** [_stop_listening_impl] *)
Definition _stop_listening_impl : M unit :=
  s <- get device_state ;;
  when (DeviceState_eqb s LISTENING)
    (emit (Submit SendStopListening) ;;
     set_device_state IDLE).

(** [stop_listening] *)
Definition stop_listening : M unit := schedule TStopListeningImpl.

(** [toggle_chat_state] *)
Definition toggle_chat_state : M unit :=
  d <- get wake_word_detector ;;
  when d (emit WakeWordPause) ;;
  schedule TToggleChatStateImpl.

(** [_toggle_chat_state_impl]; the bodies of its two threads only talk to
    the protocol and call [schedule] and [alert]. *)
Definition _toggle_chat_state_impl : M unit :=
  p <- get protocol ;;
  if negb p then emit (Log ERROR "Protocol not initialized" [])
  else
    s <- get device_state ;;
    match s with
    | IDLE =>
        schedule (TSetDeviceState CONNECTING) ;;
        emit (ThreadStart ThConnectAndListen)
    | SPEAKING => abort_speaking NONE
    | LISTENING =>
        emit (ThreadStart ThCloseAudioChannel) ;;
        schedule (TSetDeviceState IDLE)
    | CONNECTING => pass
    end.

(** [_handle_tts_start] *)
Definition _handle_tts_start : M unit :=
  modify (with_aborted false) ;;
  emit (AssignAborted false) ;;
  set_is_tts_playing true ;;
  emit CodecClearAudioQueue ;;
  s <- get device_state ;;
  when (DeviceState_eqb s IDLE || DeviceState_eqb s LISTENING)
    (schedule (TSetDeviceState SPEAKING)).

(** [_on_wake_word_detected] *)
Definition _on_wake_word_detected (wake_word full_text : string) : M unit :=
  emit (Log INFO "Detected wake word: {} (Full text: {})"
            [AStr wake_word; AStr full_text]) ;;
  schedule (THandleWakeWordDetected wake_word).

(** [_handle_wake_word_detected] *)
Definition _handle_wake_word_detected (wake_word : string) : M unit :=
  s <- get device_state ;;
  match s with
  | IDLE =>
      d <- get wake_word_detector ;;
      when d (emit WakeWordPause) ;;
      schedule (TSetDeviceState CONNECTING) ;;
      emit (Submit (ConnectAndStartListening wake_word))
  | SPEAKING => abort_speaking WAKE_WORD_DETECTED
  | _ => pass
  end.

(** [task()] for a scheduled closure.  Each raising call of the modelled
    closures is caught where it is made, so the call returns. *)
Definition run_task (task : Task) : M (Outcome unit) :=
  match task with
  | TSetDeviceState s => set_device_state s
  | TStartListeningImpl => _start_listening_impl
  | TStopListeningImpl => _stop_listening_impl
  | TToggleChatState => toggle_chat_state
  | TToggleChatStateImpl => _toggle_chat_state_impl
  | THandleTtsStart => _handle_tts_start
  | THandleWakeWordDetected wake_word => _handle_wake_word_detected wake_word
  end ;;
  ret (Returned tt).

(** The body of the [for task in tasks] loop of [_process_scheduled_tasks]. *)
Definition try_task (task : Task) : M unit :=
  r <- run_task task ;;
  match r with
  | Returned _ => pass
  | Raised e => emit (Log ERROR "Error executing scheduled task: %s" [AStr e])
  end.

(** [_process_scheduled_tasks]: copy and clear under [mutex], then run. *)
Definition _process_scheduled_tasks : M unit :=
  tasks <- get main_tasks ;;
  modify (with_main_tasks []) ;;
  emit (Log DEBUG "Processing %d scheduled tasks" [ANat (List.length tasks)]) ;;
  for_each tasks try_task.

(** [encoded_data] is truthy: neither [None] nor empty. *)
Definition truthy (data : option string) : bool :=
  match data with
  | Some s => negb (String.eqb s "")
  | None => false
  end.

(** [_handle_input_audio] *)
Definition _handle_input_audio : M unit :=
  s <- get device_state ;;
  if negb (DeviceState_eqb s LISTENING) then pass
  else
    emit CodecReadAudio ;;
    encoded_data <- ask (codec_read_audio w) ;;
    p <- get protocol ;;
    opened <- ask (is_audio_channel_opened w) ;;
    when (truthy encoded_data && p && opened)
      (emit (Submit (SendAudio (match encoded_data with
                                | Some s => s
                                | None => ""
                                end)))).

(** [_handle_output_audio] *)
Definition _handle_output_audio : M unit :=
  s <- get device_state ;;
  if negb (DeviceState_eqb s SPEAKING) then pass
  else
    set_is_tts_playing true ;;
    emit CodecPlayAudio.

(** The keys of [self.events], in the insertion order of [__init__] (the
    order in which [self.events.items()] yields them). *)
Definition events_order : list EventType :=
  [SCHEDULE_EVENT; AUDIO_INPUT_READY_EVENT; AUDIO_OUTPUT_READY_EVENT].

(** The [if]/[elif] chain of [_main_loop]. *)
Definition handle_event (event_type : EventType) : M unit :=
  match event_type with
  | AUDIO_INPUT_READY_EVENT => _handle_input_audio
  | AUDIO_OUTPUT_READY_EVENT => _handle_output_audio
  | SCHEDULE_EVENT => _process_scheduled_tasks
  end.

(** The body of [for event_type, event in self.events.items()]. *)
Definition process_event (event_type : EventType) : M unit :=
  s <- get (is_set event_type) ;;
  when s
    (modify (with_event event_type false) ;;
     emit (Log DEBUG "Processing event: %s" [AEvent event_type]) ;;
     handle_event event_type).

(** One turn of [while self.running] in [_main_loop]. *)
Definition main_loop_tick : M unit :=
  for_each events_order process_event ;;
  emit (Sleep 10).

(** [while self.running], for at most [fuel] turns. *)
Fixpoint main_loop_while (fuel : nat) : M unit :=
  match fuel with
  | O => pass
  | S fuel' =>
      r <- get running ;;
      when r (main_loop_tick ;; main_loop_while fuel')
  end.

(** [_main_loop] *)
Definition _main_loop (fuel : nat) : M unit :=
  emit (Log INFO "Main loop started" []) ;;
  modify (with_running true) ;;
  main_loop_while fuel.

(** One turn of [while self.running] in [_audio_output_event_trigger]. *)
Definition output_trigger_tick : M unit :=
  s <- get device_state ;;
  c <- get audio_codec ;;
  o <- ask (codec_output_stream w) ;;
  (if DeviceState_eqb s SPEAKING && c && o then
     active <- ask (output_stream_is_active w) ;;
     r <- (if active then ret (Returned tt)
           else
             emit OutputStreamStartStream ;;
             r <- ask (output_stream_start_stream w) ;;
             match r with
             | Returned _ => ret (Returned tt)
             | Raised e =>
                 emit (Log WARNING
                   "Failed to start output stream, trying to reinitialize: {}"
                   [AStr e]) ;;
                 emit CodecReinitializeOutputStream ;;
                 ask (codec_reinitialize_output_stream w)
             end) ;;
     match r with
     | Returned _ =>
         e <- ask (audio_decode_queue_empty w) ;;
         when (negb e) (modify (with_event AUDIO_OUTPUT_READY_EVENT true))
     | Raised e =>
         emit (Log ERROR "Audio output event trigger error: {}" [AStr e])
     end
   else pass) ;;
  emit (Sleep 20).

(** [_audio_output_event_trigger], for at most [fuel] turns. *)
Fixpoint _audio_output_event_trigger (fuel : nat) : M unit :=
  match fuel with
  | O => pass
  | S fuel' =>
      r <- get running ;;
      when r (output_trigger_tick ;; _audio_output_event_trigger fuel')
  end.

(** [_on_network_error] *)
Definition _on_network_error (error_message : option string) : M unit :=
  when (truthy error_message)
    (emit (Log ERROR "Network error: {}"
       [AStr (match error_message with Some s => s | None => "" end)])) ;;
  modify (with_keep_listening false) ;;
  emit (AssignKeepListening false) ;;
  schedule (TSetDeviceState IDLE) ;;
  d <- get wake_word_detector ;;
  paused <- ask (wwd_paused w) ;;
  when (d && paused) (emit WakeWordResume) ;;
  s <- get device_state ;;
  when (negb (DeviceState_eqb s CONNECTING))
    (emit (Log INFO "Detected connection loss" []) ;;
     schedule (TSetDeviceState IDLE) ;;
     p <- get protocol ;;
     when p (emit (Submit CloseAudioChannel))).

(** [_on_incoming_audio] *)
Definition _on_incoming_audio (data : string) : M unit :=
  s <- get device_state ;;
  when (DeviceState_eqb s SPEAKING)
    (emit (CodecWriteAudio data) ;;
     modify (with_event AUDIO_OUTPUT_READY_EVENT true)).

(** The [abort_callback] that [set_display_type] hands to both displays:
    [lambda: self.abort_speaking(AbortReason.WAKE_WORD_DETECTED)].  The
    displays call it from the abort button, the Alt+Shift+X shortcut and the
    [x] command, without looking at the device state. *)
Definition abort_callback : M unit := abort_speaking WAKE_WORD_DETECTED.

(** The entry points of the orchestrator: what a thread, the dispatch loop,
    the session or a display can invoke. *)
Inductive Operation : Type :=
| OpTask (task : Task)                     (* a closure run by the drain *)
| OpProcessAbort (reason : AbortReason)    (* the abort thread *)
| OpAbortCallback                          (* display: abort *)
| OpStartListening                         (* display: press *)
| OpStopListening                          (* display: release *)
| OpToggleChatState                        (* display: auto *)
| OpNetworkError (error_message : option string)
| OpIncomingAudio (data : string)
| OpWakeWordDetected (wake_word full_text : string)
| OpHandleInputAudio
| OpHandleOutputAudio
| OpOutputTrigger
| OpOnStateChanged (callback : Callback).

(** What each entry point runs. *)
Definition perform (op : Operation) : M unit :=
  match op with
  | OpTask task => try_task task
  | OpProcessAbort reason => process_abort reason
  | OpAbortCallback => abort_callback
  | OpStartListening => start_listening
  | OpStopListening => stop_listening
  | OpToggleChatState => toggle_chat_state
  | OpNetworkError error_message => _on_network_error error_message
  | OpIncomingAudio data => _on_incoming_audio data
  | OpWakeWordDetected wake_word full_text =>
      _on_wake_word_detected wake_word full_text
  | OpHandleInputAudio => _handle_input_audio
  | OpHandleOutputAudio => _handle_output_audio
  | OpOutputTrigger => output_trigger_tick
  | OpOnStateChanged callback => on_state_changed callback
  end.

End Application.

(** ** What a trace shows *)

(** The values assigned to [device_state]. *)
Definition pick_transition (e : Effect) : list DeviceState :=
  match e with AssignDeviceState s => [s] | _ => [] end.

(** The subscriber invocations. *)
Definition pick_callback_call (e : Effect) : list (Callback * DeviceState) :=
  match e with CallbackCall cb s => [(cb, s)] | _ => [] end.

(** The coroutines handed to the session loop. *)
Definition pick_submitted (e : Effect) : list Coroutine :=
  match e with Submit c => [c] | _ => [] end.

(** The blocking waits on a future, with their timeouts. *)
Definition pick_await (e : Effect) : list (Coroutine * Z) :=
  match e with AwaitResult c timeout_ms => [(c, timeout_ms)] | _ => [] end.

(** The threads started. *)
Definition pick_thread (e : Effect) : list ThreadBody :=
  match e with ThreadStart b => [b] | _ => [] end.

(** The events for which [_main_loop] logged "Processing event": one entry
    per handler invocation. *)
Definition pick_processed (e : Effect) : list EventType :=
  match e with
  | Log DEBUG "Processing event: %s" [AEvent et] => [et]
  | _ => []
  end.

(** The alerts raised: the warnings [alert] logs. *)
Definition pick_alert (e : Effect) : list (string * string) :=
  match e with
  | Log WARNING "Warning: {}, {}" [AStr title; AStr message] =>
      [(title, message)]
  | _ => []
  end.

(** The audio input and output calls: reading a frame, sending it,
    playing. *)
Definition pick_audio_io (e : Effect) : list Effect :=
  match e with
  | CodecReadAudio | CodecPlayAudio | Submit (SendAudio _) => [e]
  | _ => []
  end.

(** The projections of a whole trace, in order. *)
Definition transitions : Trace -> list DeviceState := flat_map pick_transition.
Definition callback_calls : Trace -> list (Callback * DeviceState) :=
  flat_map pick_callback_call.
Definition submitted : Trace -> list Coroutine := flat_map pick_submitted.
Definition awaited : Trace -> list (Coroutine * Z) := flat_map pick_await.
Definition threads_started : Trace -> list ThreadBody := flat_map pick_thread.
Definition processed : Trace -> list EventType := flat_map pick_processed.
Definition alerts : Trace -> list (string * string) := flat_map pick_alert.
Definition audio_io : Trace -> list Effect := flat_map pick_audio_io.

(** The control messages of the manual-listen and abort flows. *)
Definition pick_control (e : Effect) : list Coroutine :=
  match e with
  | Submit (SendStartListening m) => [SendStartListening m]
  | Submit (SendAbortSpeaking r) => [SendAbortSpeaking r]
  | Submit OpenAudioChannel => [OpenAudioChannel]
  | _ => []
  end.

Definition control_messages : Trace -> list Coroutine := flat_map pick_control.

(** [e1] occurs in [t] strictly before [e2]. *)
Definition before (e1 e2 : Effect) (t : Trace) : Prop :=
  exists t1 t2 t3, t = t1 ++ e1 :: t2 ++ e2 :: t3.

(** The effects the state-entry actions are made of: display updates,
    wake-word pause and resume, resuming the audio input, the IoT state push
    and log records. *)
Definition entry_effect (e : Effect) : Prop :=
  match e with
  | Log _ _ _ | DisplayUpdateStatus _ | DisplayUpdateEmotion _
  | WakeWordPause | WakeWordResume | CodecResumeInput
  | ThingManagerGetStatesJson _ | Submit (SendIotStates _) => True
  | _ => False
  end.

(** ** The scheduler under interleaving

    [schedule] and [_process_scheduled_tasks] cut at their atomic steps, so
    that producer threads and the dispatch loop can interleave.  The blocks
    under [with self.mutex] are one step each; [Event.set], [Event.is_set]
    and [Event.clear] are one step each.  A callback is opaque here: running
    it is a step, and whatever it schedules shows up as further steps of
    [schedule]. *)
Module Scheduler.
Section Model.

Variable T : Type.

(** Where the dispatch loop stands with respect to the SCHEDULE flag. *)
Inductive Phase : Type :=
| Polling                    (* before [event.is_set()] *)
| Seen                       (* [is_set()] was true, [clear()] is next *)
| Cleared                    (* [clear()] done, the mutex is next *)
| Draining (tasks : list T). (* in [for task in tasks], these are left *)

(** The queue, the flag, and where every thread stands. *)
Record State : Type := mkState {
  main_tasks : list T;
  schedule_event : bool;
  (* threads inside [schedule] between the append and [set()] *)
  setters : nat;
  phase : Phase;
  (* history: the callbacks appended and the tasks run, in order, and the
     tasks whose exception was logged *)
  scheduled : list T;
  executed : list T;
  failed : list T
}.

(** The scheduler of a fresh [Application]. *)
Definition init : State := mkState [] false 0 Polling [] [] [].

(** The local variable [tasks] of the drain in progress. *)
Definition batch (s : State) : list T :=
  match phase s with
  | Draining tasks => tasks
  | _ => []
  end.

(** [with self.mutex: self.main_tasks.append(callback)] *)
Definition append (callback : T) (s : State) : State :=
  mkState (main_tasks s ++ [callback]) (schedule_event s) (S (setters s))
          (phase s) (scheduled s ++ [callback]) (executed s) (failed s).

(** [self.events[EventType.SCHEDULE_EVENT].set()] *)
Definition set (s : State) : State :=
  mkState (main_tasks s) true (pred (setters s)) (phase s) (scheduled s)
          (executed s) (failed s).

(** [event.is_set()] answered true *)
Definition see (s : State) : State :=
  mkState (main_tasks s) (schedule_event s) (setters s) Seen (scheduled s)
          (executed s) (failed s).

(** [event.clear()] *)
Definition clear (s : State) : State :=
  mkState (main_tasks s) false (setters s) Cleared (scheduled s)
          (executed s) (failed s).

(** [with self.mutex: tasks = self.main_tasks.copy();
    self.main_tasks.clear()] *)
Definition swap (s : State) : State :=
  mkState [] (schedule_event s) (setters s) (Draining (main_tasks s))
          (scheduled s) (executed s) (failed s).

(** [task()] in its [try]/[except], for the first task left. *)
Definition run (raised : bool) (task : T) (rest : list T) (s : State)
  : State :=
  mkState (main_tasks s) (schedule_event s) (setters s) (Draining rest)
          (scheduled s) (executed s ++ [task])
          (if raised then failed s ++ [task] else failed s).

(** The [for] loop is over. *)
Definition done (s : State) : State :=
  mkState (main_tasks s) (schedule_event s) (setters s) Polling (scheduled s)
          (executed s) (failed s).

(** One atomic step of some thread. *)
Inductive step : State -> State -> Prop :=
| step_append callback s :
    step s (append callback s)
| step_set s :
    0 < setters s -> step s (set s)
| step_see s :
    phase s = Polling -> schedule_event s = true -> step s (see s)
| step_clear s :
    phase s = Seen -> step s (clear s)
| step_swap s :
    phase s = Cleared -> step s (swap s)
| step_run raised task rest s :
    phase s = Draining (task :: rest) -> step s (run raised task rest s)
| step_done s :
    phase s = Draining [] -> step s (done s).

(** The states that interleavings of such steps lead to. *)
Inductive reachable : State -> Prop :=
| reach_init : reachable init
| reach_step s s' : reachable s -> step s s' -> reachable s'.

(** A whole turn of the dispatch loop on the SCHEDULE flag with no producer
    step in between: if the flag is set, clear it, swap, run every task. *)
Definition tick (raises : T -> bool) (s : State) : State :=
  match phase s with
  | Polling =>
      if schedule_event s then
        mkState [] false (setters s) Polling (scheduled s)
                (executed s ++ main_tasks s)
                (failed s ++ filter raises (main_tasks s))
      else s
  | _ => s
  end.

(** The drain loop run to its end on the tasks [tasks]. *)
Fixpoint run_all (raises : T -> bool) (tasks : list T) (s : State) : State :=
  match tasks with
  | [] => s
  | task :: rest => run_all raises rest (run (raises task) task rest s)
  end.

End Model.

Arguments Polling {T}.
Arguments Seen {T}.
Arguments Cleared {T}.
Arguments Draining {T} tasks.
Arguments init {T}.
Arguments main_tasks {T} s.
Arguments schedule_event {T} s.
Arguments setters {T} s.
Arguments phase {T} s.
Arguments scheduled {T} s.
Arguments executed {T} s.
Arguments failed {T} s.
Arguments batch {T} s.
Arguments append {T} callback s.
Arguments set {T} s.
Arguments see {T} s.
Arguments clear {T} s.
Arguments swap {T} s.
Arguments run {T} raised task rest s.
Arguments done {T} s.
Arguments step {T} _ _.
Arguments reachable {T} _.
Arguments tick {T} raises s.
Arguments run_all {T} raises tasks s.

End Scheduler.

(** ** Sample collaborators and objects *)

(** Collaborators in good order: calls return, the channel is not yet open
    and opens on request, the detector runs, the output stream is live and
    frames are waiting to be played. *)
Definition sample_world : World :=
  {| emotion_gif := fun name => ("assets/emojis/" ++ name ++ ".gif")%string;
     wwd_hasattr_paused := true;
     wwd_hasattr_is_running := true;
     wwd_paused := fun _ => false;
     wwd_is_running := fun _ => true;
     codec_is_input_paused := fun _ => false;
     codec_read_audio := fun _ => None;
     codec_reinitialize_input_stream := fun _ => Returned tt;
     codec_output_stream := fun _ => true;
     output_stream_is_active := fun _ => true;
     output_stream_start_stream := fun _ => Returned tt;
     codec_reinitialize_output_stream := fun _ => Returned tt;
     audio_decode_queue_empty := fun _ => false;
     is_audio_channel_opened := fun _ => false;
     future_result := fun _ _ _ => Returned true;
     callback_result := fun _ _ _ => Returned tt;
     thing_manager_states := fun _ _ => (false, "{}") |}.

(** The same, except that every wait on a future times out. *)
Definition timeout_world : World :=
  {| emotion_gif := emotion_gif sample_world;
     wwd_hasattr_paused := true;
     wwd_hasattr_is_running := true;
     wwd_paused := fun _ => false;
     wwd_is_running := fun _ => true;
     codec_is_input_paused := fun _ => false;
     codec_read_audio := fun _ => None;
     codec_reinitialize_input_stream := fun _ => Returned tt;
     codec_output_stream := fun _ => true;
     output_stream_is_active := fun _ => true;
     output_stream_start_stream := fun _ => Returned tt;
     codec_reinitialize_output_stream := fun _ => Returned tt;
     audio_decode_queue_empty := fun _ => false;
     is_audio_channel_opened := fun _ => false;
     future_result := fun _ _ _ => Raised "TimeoutError";
     callback_result := fun _ _ _ => Returned tt;
     thing_manager_states := fun _ _ => (false, "{}") |}.

(** The object once [run] has bound the protocol, the display, the audio
    codec and the wake-word detector, with two state-change subscribers. *)
Definition started_app : App :=
  {| device_state := IDLE; keep_listening := false; aborted := false;
     current_text := ""; current_emotion := "neutral"; last_emotion := None;
     audio_codec := true; is_tts_playing := false; running := true;
     main_tasks := []; protocol := true; on_state_changed_callbacks := [0; 1];
     schedule_event := false; audio_input_ready_event := false;
     audio_output_ready_event := false; display := true;
     wake_word_detector := true; trace := [] |}.

(** The same object in the other device states. *)
Definition speaking_app : App :=
  with_is_tts_playing true (with_device_state SPEAKING started_app).

Definition connecting_app : App := with_device_state CONNECTING started_app.

Definition listening_app : App := with_device_state LISTENING started_app.

(** ** Scenarios *)

(** Two calls of [abort_speaking] with no TTS start in between, together
    with what the first one sets off: its thread [process_abort] and the
    next drain.  The second call comes right after the first ([pos = 0]),
    after the thread has run ([pos = 1]) or after the drain ([pos = 2]). *)
Definition two_aborts (w : World) (r1 r2 : AbortReason) (pos : nat) : M unit :=
  abort_speaking w r1 ;;
  when (Nat.eqb pos 0) (abort_speaking w r2) ;;
  process_abort w r1 ;;
  when (Nat.eqb pos 1) (abort_speaking w r2) ;;
  _process_scheduled_tasks w ;;
  when (Nat.eqb pos 2) (abort_speaking w r2).

(** A non-ignored [abort_speaking] followed by the thread it starts. *)
Definition abort_then_process (w : World) (r : AbortReason) : M unit :=
  abort_speaking w r ;;
  process_abort w r.

(** The manual-listen closure followed by the next drain. *)
Definition start_listening_then_drain (w : World) : M unit :=
  _start_listening_impl w ;;
  _process_scheduled_tasks w.

(** ** Vocabulary of the properties *)

(** The attribute [f] has the value it had. *)
Definition keeps {A : Type} (f : App -> A) (a a' : App) : Prop := f a' = f a.

(** The trace grew, by effects that all satisfy [P]. *)
Definition emits (P : Effect -> Prop) (a a' : App) : Prop :=
  exists l, trace a' = trace a ++ l /\ Forall P l.

(** Both relations hold. *)
Definition both (R1 R2 : App -> App -> Prop) (a a' : App) : Prop :=
  R1 a a' /\ R2 a a'.

(** [m] relates every object it starts from to the one it leaves. *)
Definition sat (R : App -> App -> Prop) {A : Type} (m : M A) : Prop :=
  forall a, R a (exec m a).

(** The effect [e] contributes nothing to the projection [pick]. *)
Definition silent {A : Type} (pick : Effect -> list A) (e : Effect) : Prop :=
  pick e = [].

(** The effects of the notification loop: subscriber calls and the log
    records of those that raised. *)
Definition notify_effect (s : DeviceState) (e : Effect) : Prop :=
  match e with
  | CallbackCall _ s' => s' = s
  | Log ERROR "Error executing state change callback: {}" [AStr _] => True
  | _ => False
  end.

(** The state-entry actions touch nothing but the display, the wake-word
    detector, the audio input, the IoT state push and the emotion. *)
Definition entry_frame : App -> App -> Prop :=
  both (keeps device_state)
  (both (keeps aborted)
  (both (keeps keep_listening)
  (both (keeps is_tts_playing)
  (both (keeps main_tasks)
  (both (keeps on_state_changed_callbacks)
  (both (keeps schedule_event)
  (both (keeps audio_input_ready_event)
  (both (keeps audio_output_ready_event)
        (emits entry_effect))))))))).

(** What the handlers of the dispatch loop leave alone: the two audio flags;
    and they log no "Processing event". *)
Definition handler_frame : App -> App -> Prop :=
  both (keeps audio_input_ready_event)
  (both (keeps audio_output_ready_event)
        (emits (silent pick_processed))).

(** What [set_device_state] leaves alone, and what it never emits: control
    messages, waits, thread starts, alerts, audio calls. *)
Definition transition_frame : App -> App -> Prop :=
  both (keeps main_tasks)
  (both (keeps aborted)
  (both (keeps keep_listening)
  (both (keeps is_tts_playing)
  (both (keeps schedule_event)
  (both (keeps protocol)
  (both (keeps audio_codec)
  (both (keeps wake_word_detector)
  (both (keeps display)
        (emits (fun e => silent pick_control e /\ silent pick_await e
                         /\ silent pick_thread e /\ silent pick_alert e
                         /\ silent pick_audio_io e)))))))))).

(** What [toggle_chat_state] leaves alone and never emits. *)
Definition quiet_frame : App -> App -> Prop :=
  both (keeps device_state)
  (both (keeps aborted)
        (emits (fun e => silent pick_control e /\ silent pick_thread e
                         /\ silent pick_transition e))).

(** The record [abort_speaking] logs when it ignores a call. *)
Definition already_aborted (r : AbortReason) : Effect :=
  Log DEBUG "Already aborted, ignoring repeated abort request: {}" [AReason r].

(** Every callback appended so far is in exactly one place, in append order:
    already run, in the batch being drained, or still queued. *)
Definition conserved {T : Type} (s : Scheduler.State T) : Prop :=
  Scheduler.scheduled s =
  Scheduler.executed s ++ Scheduler.batch s ++ Scheduler.main_tasks s.

(** A queued callback is never without a pending wake-up: the flag is set,
    or a producer is about to set it, or the dispatch loop has seen the flag
    and is about to swap. *)
Definition wake_up_pending {T : Type} (s : Scheduler.State T) : Prop :=
  Scheduler.main_tasks s <> [] ->
  Scheduler.schedule_event s = true \/ 0 < Scheduler.setters s
  \/ Scheduler.phase s = Scheduler.Seen
  \/ Scheduler.phase s = Scheduler.Cleared.

(** The scheduler's share of the object: the queue and the SCHEDULE flag,
    seen while no producer is inside [schedule] and the loop is polling. *)
Definition scheduler_view (a : App) : Scheduler.State Task :=
  Scheduler.mkState Task (main_tasks a) (schedule_event a) 0
                    Scheduler.Polling [] [] [].

(** ** Further operations of [Application] *)

(** How the attribute read [self.audio_codec.input_stream] ends: with the
    attribute, truthy or not, or with an exception. *)
Inductive StreamAccess : Type :=
| StreamIs (present : bool)
| StreamOSError (message : string)      (* an OSError *)
| StreamError (message : string).       (* any other Exception *)

(** What the connection threads and the input trigger ask beyond [World].
    An exception is known by its message, as in [Outcome]. *)
Record Platform : Type := mkPlatform {
  (* asyncio.run_coroutine_threadsafe(c, self.loop), where the source calls
     it in a try block of its own: a future, or an exception *)
  run_coroutine_threadsafe : Coroutine -> Trace -> Outcome unit;
  (* isinstance(e, asyncio.TimeoutError) for an exception of future.result *)
  is_timeout_error : string -> bool;
  (* self.audio_codec.input_stream *)
  codec_input_stream : Trace -> StreamAccess;
  (* AudioConfig.FRAME_DURATION, a whole number of milliseconds *)
  FRAME_DURATION : N
}.

Section MoreOperations.

Variable w : World.
Variable p : Platform.

(** [_get_status_text].  The dictionary has an entry for each of the four
    device states, so the default of [states.get] is never returned. *)
Definition _get_status_text : M string :=
  s <- get device_state ;;
  ret (match s with
       | IDLE => "Standby"
       | CONNECTING => "Connecting..."
       | LISTENING => "Listening..."
       | SPEAKING => "Speaking..."
       end).

(** [_on_mode_changed] *)
Definition _on_mode_changed (auto_mode : bool) : M bool :=
  s <- get device_state ;;
  if negb (DeviceState_eqb s IDLE) then
    alert "Warning" "Only standby state can switch dialog mode" ;;
    ret false
  else
    modify (with_keep_listening auto_mode) ;;
    emit (AssignKeepListening auto_mode) ;;
    emit (Log INFO "Dialog mode switched to: {}"
              [AStr (if auto_mode then "Automatic" else "Manual")]) ;;
    ret true.

(** The [while] loop of [delayed_state_change]: the queue is asked first,
    then the number of attempts left is looked at. *)
Fixpoint wait_for_playback (attempts_left : nat) : M unit :=
  e <- ask (audio_decode_queue_empty w) ;;
  if e then pass
  else
    match attempts_left with
    | O => pass
    | S n => emit (Sleep 100) ;; wait_for_playback n
    end.

(** [max_wait_attempts] of [delayed_state_change]. *)
Definition max_wait_attempts : nat := 30.

(** [delayed_state_change], the closure [_handle_tts_stop] schedules when
    the device state is SPEAKING. *)
Definition delayed_state_change : M unit :=
  wait_for_playback max_wait_attempts ;;
  playing <- get is_tts_playing ;;
  when playing (emit (Sleep 500)) ;;
  set_is_tts_playing false ;;
  kl <- get keep_listening ;;
  if kl then
    emit (Submit (SendStartListening AUTO_STOP)) ;;
    schedule (TSetDeviceState LISTENING)
  else schedule (TSetDeviceState IDLE).

(** [connect_and_listen], the body of the thread [_toggle_chat_state_impl]
    starts from IDLE.  [Submit] records the call of
    [run_coroutine_threadsafe], whether it returns or raises. *)
Definition connect_and_listen : M unit :=
  (* from "self.keep_listening = True" on *)
  let listen : M unit :=
    modify (with_keep_listening true) ;;
    emit (AssignKeepListening true) ;;
    emit (Submit (SendStartListening AUTO_STOP)) ;;
    s <- ask (run_coroutine_threadsafe p (SendStartListening AUTO_STOP)) ;;
    match s with
    | Returned _ => schedule (TSetDeviceState LISTENING)
    | Raised e =>
        emit (Log ERROR "Error occurred when starting listening: {}"
                  [AStr e]) ;;
        set_device_state w IDLE ;;
        alert "Error" ("Failed to start listening: " ++ e)%string
    end in
  opened <- ask (is_audio_channel_opened w) ;;
  if opened then listen
  else
    emit (Submit OpenAudioChannel) ;;
    s <- ask (run_coroutine_threadsafe p OpenAudioChannel) ;;
    match s with
    | Raised e =>
        emit (Log ERROR "Error occurred when opening audio channel: {}"
                  [AStr e]) ;;
        alert "Error" ("Failed to open audio channel: " ++ e)%string ;;
        schedule (TSetDeviceState IDLE)
    | Returned _ =>
        emit (AwaitResult OpenAudioChannel 5000) ;;
        r <- ask (future_result w OpenAudioChannel 5000) ;;
        match r with
        | Raised e =>
            if is_timeout_error p e then
              emit (Log ERROR "Audio channel open timeout" []) ;;
              schedule (TSetDeviceState IDLE) ;;
              alert "Error" "Audio channel open timeout"
            else
              emit (Log ERROR
                "Unknown error occurred when opening audio channel: {}"
                [AStr e]) ;;
              schedule (TSetDeviceState IDLE) ;;
              alert "Error" ("Failed to open audio channel: " ++ e)%string
        | Returned false =>
            alert "Error" "Failed to open audio channel" ;;
            schedule (TSetDeviceState IDLE)
        | Returned true => listen
        end
    end.

(** [close_audio_channel], the body of the thread [_toggle_chat_state_impl]
    starts from LISTENING. *)
Definition close_audio_channel : M unit :=
  emit (Submit CloseAudioChannel) ;;
  s <- ask (run_coroutine_threadsafe p CloseAudioChannel) ;;
  match s with
  | Raised e =>
      emit (Log ERROR "Error occurred when closing audio channel: {}"
                [AStr e])
  | Returned _ =>
      emit (AwaitResult CloseAudioChannel 3000) ;;
      r <- ask (future_result w CloseAudioChannel 3000) ;;
      match r with
      | Returned _ => pass
      | Raised e =>
          emit (Log ERROR "Error occurred when closing audio channel: {}"
                    [AStr e])
      end
  end.

(** What a started thread runs. *)
Definition run_thread (body : ThreadBody) : M unit :=
  match body with
  | ThProcessAbort reason => process_abort w reason
  | ThConnectAndListen => connect_and_listen
  | ThCloseAudioChannel => close_audio_channel
  end.

(** One turn of [while self.running] in [_audio_input_event_trigger].  With
    no codec bound the attribute read raises an AttributeError, which the
    second handler catches. *)
Definition input_trigger_tick : M unit :=
  s <- get device_state ;;
  (if DeviceState_eqb s LISTENING then
     c <- get audio_codec ;;
     r <- (if c then ask (codec_input_stream p)
           else ret (StreamError
                  "'NoneType' object has no attribute 'input_stream'")) ;;
     match r with
     | StreamIs present =>
         when present (modify (with_event AUDIO_INPUT_READY_EVENT true))
     | StreamOSError e =>
         emit (Log ERROR "Audio input stream error: {}" [AStr e]) ;;
         emit (Sleep 500)
     | StreamError e =>
         emit (Log ERROR "Audio input event trigger error: {}" [AStr e]) ;;
         emit (Sleep 500)
     end
   else pass) ;;
  emit (Sleep (Z.min 20 (Z.of_N (FRAME_DURATION p)))).

(** [_audio_input_event_trigger], for at most [fuel] turns. *)
Fixpoint _audio_input_event_trigger (fuel : nat) : M unit :=
  match fuel with
  | O => pass
  | S fuel' =>
      r <- get running ;;
      when r (input_trigger_tick ;; _audio_input_event_trigger fuel')
  end.

End MoreOperations.

(** A platform in good order: submissions are accepted, the input stream
    exists, frames last 60 ms. *)
Definition sample_platform : Platform :=
  {| run_coroutine_threadsafe := fun _ _ => Returned tt;
     is_timeout_error := fun e => String.eqb e "TimeoutError";
     codec_input_stream := fun _ => StreamIs true;
     FRAME_DURATION := 60 |}.

(** ** Further scenarios *)

(** The auto-mode toggle, from the closure the drain runs to the settled
    state: the closure, the drain that follows it, and the connection
    thread, which runs before that drain ([early]) or after it, followed by
    a drain of what the thread scheduled. *)
Definition toggle_then_connect (w : World) (p : Platform) (early : bool)
  : M unit :=
  _toggle_chat_state_impl w ;;
  when early (connect_and_listen w p) ;;
  _process_scheduled_tasks w ;;
  when (negb early) (connect_and_listen w p) ;;
  _process_scheduled_tasks w.

(** The end of a reply: [delayed_state_change] run by a drain, then the
    drain of what it scheduled. *)
Definition reply_ends (w : World) : M unit :=
  delayed_state_change w ;;
  _process_scheduled_tasks w.

(** ** Further vocabulary *)

(** The closures handed to [schedule]. *)
Definition pick_scheduled (e : Effect) : list Task :=
  match e with Scheduled t => [t] | _ => [] end.

(** The pauses of the calling thread, in milliseconds. *)
Definition pick_sleep (e : Effect) : list Z :=
  match e with Sleep ms => [ms] | _ => [] end.

(** The status texts pushed to the display. *)
Definition pick_status (e : Effect) : list string :=
  match e with DisplayUpdateStatus text => [text] | _ => [] end.

(** The messages of the subscribers that raised. *)
Definition pick_callback_error (e : Effect) : list string :=
  match e with
  | Log ERROR "Error executing state change callback: {}" [AStr m] => [m]
  | _ => []
  end.

(** The calls on the wake-word detector. *)
Definition pick_wake_word (e : Effect) : list Effect :=
  match e with
  | WakeWordPause | WakeWordResume => [e]
  | _ => []
  end.

Definition scheduled_tasks : Trace -> list Task := flat_map pick_scheduled.
Definition sleeps : Trace -> list Z := flat_map pick_sleep.
Definition status_updates : Trace -> list string := flat_map pick_status.
Definition callback_errors : Trace -> list string :=
  flat_map pick_callback_error.
Definition wake_word_calls : Trace -> list Effect := flat_map pick_wake_word.

(** The time a trace spends in [time.sleep], in milliseconds. *)
Definition time_asleep (t : Trace) : Z := fold_right Z.add 0%Z (sleeps t).

(** A non-empty queue has its SCHEDULE flag set. *)
Definition queue_flagged (a : App) : Prop :=
  main_tasks a <> [] -> schedule_event a = true.

(** The flag invariant carried over an operation. *)
Definition keeps_flagged (a a' : App) : Prop :=
  queue_flagged a -> queue_flagged a'.

(** The entry points that assign [device_state]: the two closures that call
    [set_device_state]. *)
Definition assigns_device_state (op : Operation) : bool :=
  match op with
  | OpTask (TSetDeviceState _) | OpTask TStopListeningImpl => true
  | _ => false
  end.

(** The cache of [_get_current_emotion] holds the path of the emotion it
    names. *)
Definition cache_consistent (w : World) (a : App) : Prop :=
  forall e path, last_emotion a = Some (e, path) -> path = emotions_get w e.

(** What the operations that only schedule leave alone and never emit. *)
Definition scheduling_frame : App -> App -> Prop :=
  both (keeps device_state) (emits (silent pick_transition)).

(** What [set_device_state] never does: schedule, or pause its thread. *)
Definition prompt_frame : App -> App -> Prop :=
  emits (fun e => silent pick_scheduled e /\ silent pick_sleep e).

(** No subscriber error is logged. *)
Definition no_callback_error : App -> App -> Prop :=
  emits (silent pick_callback_error).

(** * The displays (src/display) *)

(** ** [BaseDisplay]: the volume *)

Module BaseDisplay.

(** An argument of a log record of the display. *)
Inductive Arg : Type :=
| AVolume (volume : Z)
| AError (message : string).

(** The calls on the volume controller, and the log records. *)
Inductive Call : Type :=
| GetVolume                              (* volume_controller.get_volume() *)
| SetVolume (volume : Z)                 (* volume_controller.set_volume(v) *)
| Logged (level : LogLevel) (template : string) (args : list Arg).

(** The answers of the volume controller, as functions of the calls made
    so far. *)
Record Controller : Type := mkController {
  get_volume : list Call -> Outcome Z;
  set_volume : Z -> list Call -> Outcome unit
}.

(** The attributes of [BaseDisplay] the volume methods use.
    [volume_controller] says whether a controller is bound;
    [volume_controller_failed] is [None] while the attribute does not
    exist (the [hasattr] test). *)
Record Display : Type := mkDisplay {
  current_volume : Z;
  volume_controller : bool;
  volume_controller_failed : option bool;
  calls : list Call
}.

(** [get_current_volume] *)
Definition get_current_volume (c : Controller) (d : Display) : Z * Display :=
  if volume_controller d then
    let t := calls d ++ [GetVolume] in
    match get_volume c t with
    | Returned v =>
        (v, mkDisplay v (volume_controller d)
              (match volume_controller_failed d with
               | Some _ => Some false
               | None => None
               end)
              t)
    | Raised e =>
        (current_volume d,
         mkDisplay (current_volume d) (volume_controller d) (Some true)
           (t ++ [Logged DEBUG "Failed to get system volume: {}" [AError e]]))
    end
  else (current_volume d, d).

(** [update_volume] *)
Definition update_volume (c : Controller) (volume : Z) (d : Display)
  : Display :=
  let volume := Z.max 0 (Z.min 100 volume) in
  let t := calls d ++ [Logged INFO "Setting volume: {}%" [AVolume volume]] in
  if volume_controller d then
    let t1 := t ++ [SetVolume volume] in
    match set_volume c volume t1 with
    | Returned _ =>
        mkDisplay volume (volume_controller d) (volume_controller_failed d)
          (t1 ++ [Logged DEBUG "System volume set to: {}%" [AVolume volume]])
    | Raised e =>
        mkDisplay volume (volume_controller d) (volume_controller_failed d)
          (t1 ++ [Logged WARNING "Failed to set system volume: {}" [AError e]])
    end
  else
    mkDisplay volume (volume_controller d) (volume_controller_failed d) t.

(** The volumes the controller was asked to set. *)
Definition pick_set (call : Call) : list Z :=
  match call with SetVolume v => [v] | _ => [] end.

Definition volumes_set (t : list Call) : list Z := flat_map pick_set t.

(** A display with a controller bound, as [__init__] leaves it when the
    dependencies are met. *)
Definition sample_display : Display := mkDisplay 70 true None [].

(** A controller whose every call raises. *)
Definition failing_controller : Controller :=
  mkController (fun _ => Raised "no device") (fun _ _ => Raised "no device").

End BaseDisplay.

(** ** [CliDisplay]: status lines and shortcuts *)

Module CliDisplay.

(** What [_print_current_status] prints. *)
Record Screen : Type := mkScreen {
  shown_status : string;
  shown_text : string;
  shown_emotion : string;
  shown_volume : Z
}.

(** The keys the listener reports: the members of pynput's [Key] the
    handlers name, any other member of [Key], and a [KeyCode] with its
    [char], which may be [None]. *)
Inductive Key : Type :=
| alt_l | alt_r | shift_l | shift_r
| other_key
| KeyCode (char : option string).

(** The callbacks a shortcut invokes. *)
Inductive Shortcut : Type := AutoCallback | AbortCallback.

(** The attributes of [CliDisplay] the modelled methods use.  A callback
    attribute says whether a callback is bound; [pressed_keys] is a set,
    kept as a list without repetition; [screens] is what was printed. *)
Record Cli : Type := mkCli {
  current_status : string;
  current_text : string;
  current_emotion : string;
  current_volume : Z;
  auto_callback : bool;
  abort_callback : bool;
  pressed_keys : list string;
  screens : list Screen
}.

(** [_print_current_status] *)
Definition _print_current_status (c : Cli) : Cli :=
  mkCli (current_status c) (current_text c) (current_emotion c)
    (current_volume c) (auto_callback c) (abort_callback c) (pressed_keys c)
    (screens c ++ [mkScreen (current_status c) (current_text c)
                     (current_emotion c) (current_volume c)]).

(** [update_status] *)
Definition update_status (status : string) (c : Cli) : Cli :=
  if negb (String.eqb status (current_status c)) then
    _print_current_status
      (mkCli status (current_text c) (current_emotion c) (current_volume c)
         (auto_callback c) (abort_callback c) (pressed_keys c) (screens c))
  else c.

(** [update_text] *)
Definition update_text (text : string) (c : Cli) : Cli :=
  if negb (String.eqb text (current_text c)) then
    _print_current_status
      (mkCli (current_status c) text (current_emotion c) (current_volume c)
         (auto_callback c) (abort_callback c) (pressed_keys c) (screens c))
  else c.

(** [set.add] and [set.discard] on [pressed_keys], and [k in pressed_keys]. *)
Definition held (k : string) (keys : list string) : bool :=
  existsb (String.eqb k) keys.

Definition add (k : string) (keys : list string) : list string :=
  if held k keys then keys else k :: keys.

Definition discard (k : string) (keys : list string) : list string :=
  filter (fun x => negb (String.eqb k x)) keys.

Definition with_pressed_keys (keys : list string) (c : Cli) : Cli :=
  mkCli (current_status c) (current_text c) (current_emotion c)
    (current_volume c) (auto_callback c) (abort_callback c) keys (screens c).

(** [is_combo] *)
Definition is_combo (keys : list string) (c : Cli) : bool :=
  forallb (fun k => held k (pressed_keys c)) keys.

(** [str.lower] on the letters A to Z; other characters are left as they
    are. *)
Definition lower_char (ch : Ascii.ascii) : Ascii.ascii :=
  let n := Ascii.nat_of_ascii ch in
  if Nat.leb 65 n && Nat.leb n 90 then Ascii.ascii_of_nat (n + 32) else ch.

Fixpoint lower (s : string) : string :=
  match s with
  | EmptyString => EmptyString
  | String ch s' => String (lower_char ch) (lower s')
  end.

(** The name under which a key is recorded, the [if]/[elif] chain of
    [on_press] and [on_release]: [hasattr(key, 'char') and key.char] holds
    of a [KeyCode] whose [char] is a non-empty string. *)
Definition recorded (key : Key) (change : string -> list string -> list string)
  (c : Cli) : Cli :=
  match key with
  | alt_l | alt_r => with_pressed_keys (change "alt" (pressed_keys c)) c
  | shift_l | shift_r => with_pressed_keys (change "shift" (pressed_keys c)) c
  | KeyCode (Some ch) =>
      if negb (String.eqb ch "")
      then with_pressed_keys (change (lower ch) (pressed_keys c)) c
      else c
  | KeyCode None | other_key => c
  end.

(** [on_press]: the callbacks invoked, in order, and the display after.
    The callbacks return. *)
Definition on_press (key : Key) (c : Cli) : list Shortcut * Cli :=
  let c1 := recorded key add c in
  ((if is_combo ["alt"; "shift"; "a"] c1 && auto_callback c1
    then [AutoCallback] else []) ++
   (if is_combo ["alt"; "shift"; "x"] c1 && abort_callback c1
    then [AbortCallback] else []),
   c1).

(** [on_release] *)
Definition on_release (key : Key) (c : Cli) : Cli := recorded key discard c.

(** A sequence of key presses: the callbacks invoked, in order. *)
Fixpoint press_all (keys : list Key) (c : Cli) : list Shortcut * Cli :=
  match keys with
  | [] => ([], c)
  | key :: rest =>
      let (fired, c1) := on_press key c in
      let (fired', c2) := press_all rest c1 in
      (fired ++ fired', c2)
  end.

(** A display with both callbacks bound and no key held. *)
Definition ready : Cli :=
  mkCli "Not Connected" "Standby" "neutral" 0 true true [] [].

End CliDisplay.

(** ** [GuiDisplay]: the volume and the mute button *)

Module GuiDisplay.

(** The calls on the volume controller and on the widgets, and the log
    records. *)
Inductive Call : Type :=
| SetVolume (volume : Z)              (* volume_controller.set_volume(v) *)
| VolumeLabelSetText (volume : Z)     (* volume_label.setText(f"{v}%") *)
| MuteSetText (text : string)         (* mute.setText(text) *)
| LoggedError (template : string) (message : string).

(** The attributes of [GuiDisplay] the volume methods use.  [volume_label]
    and [mute] say whether the widget is bound. *)
Record Gui : Type := mkGui {
  current_volume : Z;
  is_muted : bool;
  pre_mute_volume : Z;
  volume_control_available : bool;
  volume_controller_failed : bool;
  volume_label : bool;
  mute : bool;
  calls : list Call
}.

Definition with_calls (t : list Call) (g : Gui) : Gui :=
  mkGui (current_volume g) (is_muted g) (pre_mute_volume g)
    (volume_control_available g) (volume_controller_failed g)
    (volume_label g) (mute g) t.

(** [update_volume], the override of [GuiDisplay]: no clamping; an
    exception of the controller is caught by the method. *)
Definition update_volume (set_volume : Z -> list Call -> Outcome unit)
  (volume : Z) (g : Gui) : Gui :=
  let g1 := mkGui volume (is_muted g) (pre_mute_volume g)
              (volume_control_available g) (volume_controller_failed g)
              (volume_label g) (mute g) (calls g) in
  let label (g2 : Gui) : Gui :=
    if volume_label g2
    then with_calls (calls g2 ++ [VolumeLabelSetText volume]) g2
    else g2 in
  if volume_control_available g1 then
    let t := calls g1 ++ [SetVolume volume] in
    match set_volume volume t with
    | Returned _ => label (with_calls t g1)
    | Raised e =>
        mkGui volume (is_muted g) (pre_mute_volume g)
          (volume_control_available g) true (volume_label g) (mute g)
          (t ++ [LoggedError "Failed to update system volume: {}" e])
    end
  else label g1.

(** [_on_mute_click] *)
Definition _on_mute_click (set_volume : Z -> list Call -> Outcome unit)
  (g : Gui) : Gui :=
  if negb (is_muted g) then
    let g1 := mkGui (current_volume g) (is_muted g) (current_volume g)
                (volume_control_available g) (volume_controller_failed g)
                (volume_label g) (mute g) (calls g) in
    let g2 := update_volume set_volume 0 g1 in
    let g3 := mkGui (current_volume g2) true (pre_mute_volume g2)
                (volume_control_available g2) (volume_controller_failed g2)
                (volume_label g2) (mute g2) (calls g2) in
    if mute g3 then with_calls (calls g3 ++ [MuteSetText "Unmute"]) g3 else g3
  else
    let g2 := update_volume set_volume (pre_mute_volume g) g in
    let g3 := mkGui (current_volume g2) false (pre_mute_volume g2)
                (volume_control_available g2) (volume_controller_failed g2)
                (volume_label g2) (mute g2) (calls g2) in
    if mute g3 then with_calls (calls g3 ++ [MuteSetText "Mute"]) g3 else g3.

(** The volumes the controller was asked to set. *)
Definition pick_set (call : Call) : list Z :=
  match call with SetVolume v => [v] | _ => [] end.

Definition volumes_set (t : list Call) : list Z := flat_map pick_set t.

(** The window once built, with a controller bound, at volume 70. *)
Definition sample_gui : Gui := mkGui 70 false 70 true false true true [].

End GuiDisplay.

(** * Properties *)

(** ** Equality tests *)

Lemma DeviceState_eqb_eq (x y : DeviceState) :
  DeviceState_eqb x y = true <-> x = y.
Proof. destruct x, y; simpl; split; congruence. Qed.

Lemma DeviceState_eqb_refl (x : DeviceState) : DeviceState_eqb x x = true.
Proof. now destruct x. Qed.

Lemma DeviceState_eqb_neq (x y : DeviceState) :
  DeviceState_eqb x y = false <-> x <> y.
Proof. destruct x, y; simpl; split; congruence. Qed.

(** ** Relations between the object before and after an operation *)

#[local] Instance keeps_preorder {A : Type} (f : App -> A) :
  PreOrder (keeps f).
Proof.
  split.
  - intros a. reflexivity.
  - intros a b c H1 H2. unfold keeps in *. congruence.
Qed.

#[local] Instance emits_preorder (P : Effect -> Prop) : PreOrder (emits P).
Proof.
  split.
  - intros a. exists []. split; [now rewrite app_nil_r | constructor].
  - intros a b c [l1 [E1 F1]] [l2 [E2 F2]]. exists (l1 ++ l2). split.
    + now rewrite E2, E1, app_assoc.
    + apply Forall_app. now split.
Qed.

#[local] Instance both_preorder (R1 R2 : App -> App -> Prop)
  `{PreOrder App R1} `{PreOrder App R2} : PreOrder (both R1 R2).
Proof.
  split.
  - intros a. split; reflexivity.
  - intros a b c [H1 H2] [H3 H4]. split; etransitivity; eassumption.
Qed.

Section SatRules.

Variable R : App -> App -> Prop.
Context `{PreOrder App R}.

Lemma sat_ret {A : Type} (x : A) : sat R (ret x).
Proof. intros a. unfold exec, ret. simpl. reflexivity. Qed.

Lemma sat_pass : sat R pass.
Proof. apply sat_ret. Qed.

Lemma sat_get {A : Type} (f : App -> A) : sat R (get f).
Proof. intros a. unfold exec, get. simpl. reflexivity. Qed.

Lemma sat_ask {A : Type} (q : Trace -> A) : sat R (ask q).
Proof. intros a. unfold exec, ask. simpl. reflexivity. Qed.

Lemma sat_modify (f : App -> App) :
  (forall a, R a (f a)) -> sat R (modify f).
Proof. intros Hf a. apply Hf. Qed.

Lemma sat_emit (e : Effect) :
  (forall a, R a (with_trace (trace a ++ [e]) a)) -> sat R (emit e).
Proof. intros He a. apply He. Qed.

Lemma sat_bind {A B : Type} (m : M A) (k : A -> M B) :
  sat R m -> (forall x, sat R (k x)) -> sat R (bind m k).
Proof.
  intros Hm Hk a. unfold exec, bind.
  specialize (Hm a). unfold exec in Hm.
  destruct (m a) as [x a1]. simpl in Hm.
  etransitivity; [exact Hm | apply Hk].
Qed.

Lemma sat_when (b : bool) (m : M unit) : sat R m -> sat R (when b m).
Proof. intros Hm. destruct b; [exact Hm | apply sat_pass]. Qed.

Lemma sat_for_each {A : Type} (l : list A) (body : A -> M unit) :
  (forall x, sat R (body x)) -> sat R (for_each l body).
Proof.
  intros Hb. induction l as [|x l IH]; simpl.
  - apply sat_pass.
  - apply sat_bind; [apply Hb | intros _; exact IH].
Qed.

End SatRules.

(** Decompose a program along its structure; [side] closes what the
    elementary updates and effects must satisfy. *)
Ltac sat_walk side :=
  repeat first
    [ progress intros
    | solve [typeclasses eauto]
    | apply sat_pass
    | apply sat_ret
    | apply sat_get
    | apply sat_ask
    | apply sat_bind
    | apply sat_when
    | apply sat_for_each
    | apply sat_emit; intros; solve [side]
    | apply sat_modify; intros; solve [side]
    | match goal with
      | |- sat _ (match ?x with _ => _ end) => destruct x
      end
    | progress cbv beta zeta delta
        [set_is_tts_playing schedule on_state_changed _get_current_emotion
         set_emotion set_chat_message alert _update_iot_states
         wake_word_paused wake_word_running input_paused entry_actions notify
         set_device_state abort_speaking process_abort _start_listening_impl
         start_listening _stop_listening_impl stop_listening
         toggle_chat_state _toggle_chat_state_impl _handle_tts_start
         _on_wake_word_detected _handle_wake_word_detected run_task try_task
         _process_scheduled_tasks _handle_input_audio _handle_output_audio
         handle_event process_event main_loop_tick output_trigger_tick
         _on_network_error _on_incoming_audio abort_callback perform] ].

Ltac emits_one :=
  match goal with
  | |- emits _ _ (with_trace (trace _ ++ [?e]) _) =>
      exists [e]; split; [reflexivity | repeat constructor]
  | |- emits _ _ _ =>
      exists []; split; [simpl; now rewrite app_nil_r | constructor]
  end.

Ltac side_basic :=
  unfold both, keeps; repeat split; try reflexivity; try emits_one.

Lemma entry_actions_frame (w : World) (s : DeviceState) :
  sat entry_frame (entry_actions w s).
Proof.
  unfold entry_frame.
  sat_walk side_basic.
Qed.

(** ** Running programs *)

Lemma run_bind {A B : Type} (m : M A) (k : A -> M B) (a : App) :
  bind m k a = k (fst (m a)) (snd (m a)).
Proof. unfold bind. now destruct (m a). Qed.

Lemma exec_bind {A B : Type} (m : M A) (k : A -> M B) (a : App) :
  exec (bind m k) a = exec (k (fst (m a))) (exec m a).
Proof. unfold exec. now rewrite run_bind. Qed.

Lemma unit_result (m : M unit) (a : App) : m a = (tt, exec m a).
Proof. unfold exec. now destruct (m a) as [[] a']. Qed.

Lemma exec_for_each_app {A : Type} (l1 l2 : list A) (body : A -> M unit)
  (a : App) :
  exec (for_each (l1 ++ l2) body) a =
  exec (for_each l2 body) (exec (for_each l1 body) a).
Proof.
  revert a. induction l1 as [|x l1 IH]; intros a; simpl.
  - reflexivity.
  - rewrite !exec_bind. apply IH.
Qed.

(** ** Reading traces *)

Lemma transitions_app (t1 t2 : Trace) :
  transitions (t1 ++ t2) = transitions t1 ++ transitions t2.
Proof. apply flat_map_app. Qed.

Lemma callback_calls_app (t1 t2 : Trace) :
  callback_calls (t1 ++ t2) = callback_calls t1 ++ callback_calls t2.
Proof. apply flat_map_app. Qed.

Lemma submitted_app (t1 t2 : Trace) :
  submitted (t1 ++ t2) = submitted t1 ++ submitted t2.
Proof. apply flat_map_app. Qed.

Lemma control_messages_app (t1 t2 : Trace) :
  control_messages (t1 ++ t2) = control_messages t1 ++ control_messages t2.
Proof. apply flat_map_app. Qed.

Lemma awaited_app (t1 t2 : Trace) :
  awaited (t1 ++ t2) = awaited t1 ++ awaited t2.
Proof. apply flat_map_app. Qed.

Lemma threads_started_app (t1 t2 : Trace) :
  threads_started (t1 ++ t2) = threads_started t1 ++ threads_started t2.
Proof. apply flat_map_app. Qed.

Lemma processed_app (t1 t2 : Trace) :
  processed (t1 ++ t2) = processed t1 ++ processed t2.
Proof. apply flat_map_app. Qed.

Lemma alerts_app (t1 t2 : Trace) :
  alerts (t1 ++ t2) = alerts t1 ++ alerts t2.
Proof. apply flat_map_app. Qed.

Lemma silent_trace {A : Type} (pick : Effect -> list A) (t : Trace) :
  Forall (silent pick) t -> flat_map pick t = [].
Proof.
  intros Ht. induction Ht as [|e t He _ IH]; simpl.
  - reflexivity.
  - unfold silent in He. now rewrite He, IH.
Qed.

Lemma Forall_weaken (P Q : Effect -> Prop) (t : Trace) :
  (forall e, P e -> Q e) -> Forall P t -> Forall Q t.
Proof. intros HPQ Ht. eapply Forall_impl; eassumption. Qed.

Lemma transitions_in (s : DeviceState) (t : Trace) :
  In s (transitions t) -> In (AssignDeviceState s) t.
Proof.
  unfold transitions. rewrite in_flat_map. intros (e & He & Hs).
  destruct e; cbn in Hs; try contradiction.
  destruct Hs as [-> | []]. exact He.
Qed.

Lemma entry_no_transition (t : Trace) :
  Forall entry_effect t -> transitions t = [].
Proof.
  intros Ht. apply silent_trace. revert Ht. apply Forall_weaken.
  intros e He. destruct e; simpl in *; try tauto; reflexivity.
Qed.

Lemma entry_no_callback (t : Trace) :
  Forall entry_effect t -> callback_calls t = [].
Proof.
  intros Ht. apply silent_trace. revert Ht. apply Forall_weaken.
  intros e He. destruct e; simpl in *; try tauto; reflexivity.
Qed.

(** ** The state machine *)

(** The notification loop calls each subscriber once, in list order, a
    raising subscriber included; it changes nothing but the trace. *)
Lemma notify_loop (w : World) (s : DeviceState) (l : list Callback) (a : App) :
  exists notes,
    exec (for_each l (notify w s)) a = with_trace (trace a ++ notes) a
    /\ callback_calls notes = map (fun cb => (cb, s)) l
    /\ Forall (notify_effect s) notes.
Proof.
  revert a. induction l as [|cb l IH]; intros a.
  - exists []. simpl. rewrite app_nil_r. now destruct a.
  - simpl for_each. rewrite exec_bind.
    set (a1 := exec (notify w s cb) a).
    assert (H1 : exists n1, a1 = with_trace (trace a ++ n1) a
                 /\ callback_calls n1 = [(cb, s)]
                 /\ Forall (notify_effect s) n1).
    { subst a1. unfold notify, exec. rewrite !run_bind. cbn.
      destruct (callback_result w cb s (trace a ++ [CallbackCall cb s])).
      - exists [CallbackCall cb s]. repeat split; repeat constructor.
      - exists [CallbackCall cb s;
                Log ERROR "Error executing state change callback: {}"
                    [AStr message]].
        cbn. rewrite <- app_assoc. repeat split; repeat constructor. }
    destruct H1 as [n1 [E1 [C1 F1]]].
    destruct (IH a1) as [n2 [E2 [C2 F2]]].
    exists (n1 ++ n2). split; [|split].
    + rewrite E2, E1. cbn. now rewrite app_assoc.
    + rewrite callback_calls_app, C1, C2. reflexivity.
    + apply Forall_app. now split.
Qed.

Lemma notify_no_transition (s : DeviceState) (t : Trace) :
  Forall (notify_effect s) t -> transitions t = [].
Proof.
  intros Ht. apply silent_trace. revert Ht. apply Forall_weaken.
  intros e He. destruct e; simpl in *; try tauto; reflexivity.
Qed.

(** What [set_device_state] does when the state differs. *)
Lemma set_device_state_changes (w : World) (a : App) (next : DeviceState) :
  next <> device_state a ->
  let a1 := with_trace (trace a ++ [AssignDeviceState next])
                       (with_device_state next a) in
  let a2 := exec (entry_actions w next) a1 in
  exec (set_device_state w next) a =
  exec (for_each (on_state_changed_callbacks a) (notify w next)) a2.
Proof.
  intros Hne a1 a2. unfold set_device_state.
  rewrite exec_bind. cbn [get fst snd exec].
  assert (E : DeviceState_eqb (device_state a) next = false)
    by (apply DeviceState_eqb_neq; congruence).
  rewrite E. rewrite !exec_bind. cbn [modify emit fst snd exec get].
  match goal with
  | |- exec (for_each (on_state_changed_callbacks ?x) _) _ = _ =>
      change x with a2
  end.
  destruct (entry_actions_frame w next a1) as (_ & _ & _ & _ & _ & Hc & _).
  unfold keeps in Hc. fold a2 in Hc. rewrite Hc. reflexivity.
Qed.

Lemma set_device_state_same (w : World) (a : App) (next : DeviceState) :
  next = device_state a -> set_device_state w next a = (tt, a).
Proof.
  intros ->. unfold set_device_state. rewrite run_bind. cbn [get fst snd].
  now rewrite DeviceState_eqb_refl.
Qed.

Lemma set_device_state_differs (w : World) (a : App) (next : DeviceState) :
  next <> device_state a ->
  let a1 := with_trace (trace a ++ [AssignDeviceState next])
                       (with_device_state next a) in
  exists entry notes,
    trace (exec (entry_actions w next) a1) = trace a1 ++ entry
    /\ trace (exec (set_device_state w next) a) =
       trace a ++ [AssignDeviceState next] ++ entry ++ notes
    /\ device_state (exec (set_device_state w next) a) = next
    /\ transitions ([AssignDeviceState next] ++ entry ++ notes) = [next]
    /\ callback_calls entry = []
    /\ callback_calls notes =
       map (fun cb => (cb, next)) (on_state_changed_callbacks a).
Proof.
  intros Hne a1.
  rewrite (set_device_state_changes w a next Hne). fold a1.
  destruct (entry_actions_frame w next a1)
    as (Hs & _ & _ & _ & _ & _ & _ & _ & _ & entry & Et & Ef).
  unfold keeps in Hs.
  set (a2 := exec (entry_actions w next) a1) in *.
  destruct (notify_loop w next (on_state_changed_callbacks a) a2)
    as (notes & En & Cn & Fn).
  exists entry, notes. rewrite En. cbn [trace with_trace device_state].
  repeat split.
  - exact Et.
  - rewrite Et. subst a1. cbn. now rewrite <- !app_assoc.
  - rewrite Hs. reflexivity.
  - rewrite !transitions_app, (entry_no_transition _ Ef),
      (notify_no_transition _ _ Fn). reflexivity.
  - now apply entry_no_callback.
  - exact Cn.
Qed.

(** C1. [set_device_state(next)] with [next] equal to the current state
    returns at once: the object, trace included, is what it was, so no entry
    action ran and no subscriber was called.  With [next] different, the
    device state is assigned once, to [next]; then the entry actions of
    [next] run; then every registered subscriber is called with [next], in
    registration order. *)
Theorem C1_set_device_state_idempotent_or_notifying
  (w : World) (a : App) (next : DeviceState) :
  (next = device_state a -> set_device_state w next a = (tt, a))
  /\ (next <> device_state a ->
      let a1 := with_trace (trace a ++ [AssignDeviceState next])
                           (with_device_state next a) in
      exists entry notes,
        trace (exec (entry_actions w next) a1) = trace a1 ++ entry
        /\ trace (exec (set_device_state w next) a) =
           trace a ++ [AssignDeviceState next] ++ entry ++ notes
        /\ device_state (exec (set_device_state w next) a) = next
        /\ transitions ([AssignDeviceState next] ++ entry ++ notes) = [next]
        /\ callback_calls entry = []
        /\ callback_calls notes =
           map (fun cb => (cb, next)) (on_state_changed_callbacks a)).
Proof.
  split.
  - apply set_device_state_same.
  - apply set_device_state_differs.
Qed.

(** ** The event handlers *)

(** C10. The handlers of the two audio events test the device state first.
    Outside SPEAKING, [_handle_output_audio] leaves the object, trace
    included, as it was: [is_tts_playing] is not written and nothing is
    played.  Outside LISTENING, [_handle_input_audio] does the same: nothing
    is read and nothing is sent.  So a ready flag that is still set when the
    state has moved on costs the dispatch loop one cleared flag and one
    debug record, and no audio call. *)
Theorem C10_handlers_recheck_device_state (w : World) (a : App) :
  (device_state a <> SPEAKING -> _handle_output_audio a = (tt, a))
  /\ (device_state a <> LISTENING -> _handle_input_audio w a = (tt, a))
  /\ (device_state a <> SPEAKING ->
      is_set AUDIO_OUTPUT_READY_EVENT a = true ->
      exec (process_event w AUDIO_OUTPUT_READY_EVENT) a =
      with_trace
        (trace a ++
         [Log DEBUG "Processing event: %s" [AEvent AUDIO_OUTPUT_READY_EVENT]])
        (with_event AUDIO_OUTPUT_READY_EVENT false a))
  /\ (device_state a <> LISTENING ->
      is_set AUDIO_INPUT_READY_EVENT a = true ->
      exec (process_event w AUDIO_INPUT_READY_EVENT) a =
      with_trace
        (trace a ++
         [Log DEBUG "Processing event: %s" [AEvent AUDIO_INPUT_READY_EVENT]])
        (with_event AUDIO_INPUT_READY_EVENT false a)).
Proof.
  repeat split.
  - intros Hs. unfold _handle_output_audio. rewrite run_bind. cbn.
    destruct (device_state a); try reflexivity. congruence.
  - intros Hs. unfold _handle_input_audio. rewrite run_bind. cbn.
    destruct (device_state a); try reflexivity. congruence.
  - intros Hs Hf. unfold process_event, exec. rewrite run_bind.
    cbn [get fst snd]. rewrite Hf. cbn [when]. rewrite !run_bind.
    cbn [modify emit fst snd handle_event].
    unfold _handle_output_audio. rewrite run_bind. cbn.
    destruct (device_state a); try reflexivity. congruence.
  - intros Hs Hf. unfold process_event, exec. rewrite run_bind.
    cbn [get fst snd]. rewrite Hf. cbn [when]. rewrite !run_bind.
    cbn [modify emit fst snd handle_event].
    unfold _handle_input_audio. rewrite run_bind. cbn.
    destruct (device_state a); try reflexivity. congruence.
Qed.

(** ** Case analysis on loop-free programs *)

(** Unfold the operations down to the monad. *)
Ltac open_ops :=
  cbv beta iota zeta delta
    [set_is_tts_playing schedule on_state_changed _get_current_emotion
     set_emotion set_chat_message alert _update_iot_states
     wake_word_paused wake_word_running input_paused entry_actions notify
     abort_speaking process_abort _start_listening_impl
     start_listening _stop_listening_impl stop_listening
     toggle_chat_state _toggle_chat_state_impl _handle_tts_start
     _on_wake_word_detected _handle_wake_word_detected
     _handle_input_audio _handle_output_audio
     handle_event process_event output_trigger_tick
     _on_network_error _on_incoming_audio abort_callback
     exec bind get modify emit ask ret pass when fst snd].

(** Split on a test whose subject is not itself a test. *)
Ltac split_leaf :=
  match goal with
  | |- context [match ?x with _ => _ end] =>
      lazymatch x with
      | context [match _ with _ => _ end] => fail
      | _ => destruct x eqn:?
      end
  end.

Ltac bool_facts :=
  repeat match goal with
  | H : _ && _ = true |- _ => apply andb_true_iff in H; destruct H
  | H : negb _ = true |- _ => apply negb_true_iff in H
  | H : negb _ = false |- _ => apply negb_false_iff in H
  | H : DeviceState_eqb _ _ = true |- _ => apply DeviceState_eqb_eq in H
  | H : DeviceState_eqb _ _ = false |- _ => apply DeviceState_eqb_neq in H
  end.

Ltac by_cases := open_ops; cbn; repeat (split_leaf; cbn).

(** ** The audio output trigger *)

Lemma output_trigger_tick_keeps_state (w : World) :
  sat (keeps device_state) (output_trigger_tick w).
Proof. sat_walk side_basic. Qed.

Lemma output_trigger_tick_guard (w : World) (a : App) :
  audio_output_ready_event a = false ->
  audio_output_ready_event (exec (output_trigger_tick w) a) = true ->
  device_state a = SPEAKING
  /\ audio_codec a = true
  /\ codec_output_stream w (trace a) = true
  /\ exists t, audio_decode_queue_empty w (trace a ++ t) = false.
Proof.
  destruct a. cbn [audio_output_ready_event device_state audio_codec trace].
  intros ->. by_cases; intros; try discriminate; bool_facts;
    repeat split; try assumption.
  all: try (exists []; rewrite app_nil_r; assumption).
  all: eexists; rewrite <- ?app_assoc in *; eassumption.
Qed.

Lemma output_trigger_tick_not_speaking (w : World) (a : App) :
  device_state a <> SPEAKING ->
  exec (output_trigger_tick w) a = with_trace (trace a ++ [Sleep 20]) a.
Proof.
  destruct a. cbn [device_state]. intros Hs.
  by_cases; bool_facts; try reflexivity; congruence.
Qed.

Lemma output_trigger_not_speaking (w : World) (fuel : nat) (a : App) :
  device_state a <> SPEAKING ->
  audio_output_ready_event (exec (_audio_output_event_trigger w fuel) a) =
  audio_output_ready_event a.
Proof.
  revert a. induction fuel as [|fuel IH]; intros a Hs.
  - reflexivity.
  - simpl. rewrite exec_bind. cbn [get fst snd exec].
    destruct (running a); [|reflexivity].
    cbn [when]. fold (exec (output_trigger_tick w;; _audio_output_event_trigger w fuel) a).
    rewrite exec_bind, output_trigger_tick_not_speaking by exact Hs.
    rewrite IH; [reflexivity | exact Hs].
Qed.

(** C6. A turn of the output trigger thread sets AUDIO_OUTPUT_READY only if
    the device state is SPEAKING, [audio_codec] is bound, its output stream
    exists, and the decode queue answered non-empty when asked.  Outside
    SPEAKING, and so in IDLE, no number of turns changes the flag, whatever
    the collaborators answer (a non-empty queue included). *)
Theorem C6_output_trigger_sets_flag_only_when_speaking
  (w : World) (a : App) :
  (audio_output_ready_event a = false ->
   audio_output_ready_event (exec (output_trigger_tick w) a) = true ->
   device_state a = SPEAKING
   /\ audio_codec a = true
   /\ codec_output_stream w (trace a) = true
   /\ exists t, audio_decode_queue_empty w (trace a ++ t) = false)
  /\ (forall fuel, device_state a <> SPEAKING ->
      audio_output_ready_event (exec (_audio_output_event_trigger w fuel) a) =
      audio_output_ready_event a)
  /\ (forall fuel, device_state a = IDLE ->
      audio_output_ready_event a = false ->
      audio_output_ready_event (exec (_audio_output_event_trigger w fuel) a) =
      false).
Proof.
  split; [|split].
  - apply output_trigger_tick_guard.
  - intros fuel Hs. now apply output_trigger_not_speaking.
  - intros fuel Hs Hf. rewrite output_trigger_not_speaking; [exact Hf|].
    rewrite Hs. discriminate.
Qed.

(** ** The dispatch loop *)

Lemma handle_event_frame (w : World) (et : EventType) :
  sat handler_frame (handle_event w et).
Proof. unfold handler_frame. sat_walk side_basic. Qed.

Lemma process_event_spec (w : World) (et : EventType) (a : App) :
  exec (process_event w et) a =
  if is_set et a then
    exec (handle_event w et)
      (with_trace (trace a ++ [Log DEBUG "Processing event: %s" [AEvent et]])
                  (with_event et false a))
  else a.
Proof.
  unfold process_event. rewrite exec_bind. cbn [get fst snd exec].
  destruct (is_set et a); [|reflexivity].
  cbn [when]. rewrite !exec_bind. destruct et; reflexivity.
Qed.

Lemma is_set_with_event (et et' : EventType) (v : bool) (a : App) :
  is_set et (with_event et' v a) = if EventType_eqb et et' then v else is_set et a.
Proof. destruct et, et'; reflexivity. Qed.

(** One event of a tick: the handler runs iff the flag was set; the audio
    flags of the events still to come are untouched. *)
Lemma process_event_effect (w : World) (et : EventType) (a : App) :
  let a' := exec (process_event w et) a in
  (forall et', et' <> SCHEDULE_EVENT -> et' <> et -> is_set et' a' = is_set et' a)
  /\ exists l, trace a' = trace a ++ l
               /\ processed l = if is_set et a then [et] else [].
Proof.
  intros a'. subst a'. rewrite process_event_spec.
  destruct (is_set et a) eqn:E.
  - set (a1 := with_trace _ _).
    destruct (handle_event_frame w et a1) as (Hi & Ho & l & El & Fl).
    unfold keeps in *. split.
    + intros et' H1 H2. destruct et'; try congruence; cbn [is_set].
      * rewrite Hi. subst a1. destruct et; try congruence; reflexivity.
      * rewrite Ho. subst a1. destruct et; try congruence; reflexivity.
    + eexists. split.
      * rewrite El. subst a1. destruct et; cbn [trace with_trace with_event];
          rewrite <- app_assoc; reflexivity.
      * rewrite processed_app. unfold processed at 2.
        rewrite (silent_trace _ _ Fl). destruct et; reflexivity.
  - split; [reflexivity|]. exists []. now rewrite app_nil_r.
Qed.

Lemma main_loop_tick_processed (w : World) (a : App) :
  exists l,
    trace (exec (main_loop_tick w) a) = trace a ++ l
    /\ processed l = filter (fun et => is_set et a) events_order.
Proof.
  unfold main_loop_tick, events_order. rewrite exec_bind.
  cbn [for_each]. rewrite !exec_bind. cbn [pass ret exec snd fst emit modify].
  set (a1 := exec (process_event w SCHEDULE_EVENT) a).
  set (a2 := exec (process_event w AUDIO_INPUT_READY_EVENT) a1).
  set (a3 := exec (process_event w AUDIO_OUTPUT_READY_EVENT) a2).
  destruct (process_event_effect w SCHEDULE_EVENT a) as (K1 & l1 & E1 & P1).
  destruct (process_event_effect w AUDIO_INPUT_READY_EVENT a1)
    as (K2 & l2 & E2 & P2).
  destruct (process_event_effect w AUDIO_OUTPUT_READY_EVENT a2)
    as (_ & l3 & E3 & P3).
  fold a1 in K1, E1. fold a2 in K2, E2. fold a3 in E3.
  assert (Hi : is_set AUDIO_INPUT_READY_EVENT a1 =
               is_set AUDIO_INPUT_READY_EVENT a) by (apply K1; discriminate).
  assert (Ho : is_set AUDIO_OUTPUT_READY_EVENT a2 =
               is_set AUDIO_OUTPUT_READY_EVENT a).
  { rewrite K2 by discriminate. apply K1; discriminate. }
  rewrite Hi in P2. rewrite Ho in P3.
  exists (l1 ++ l2 ++ l3 ++ [Sleep 10]). split.
  - cbn [trace with_trace]. rewrite E3, E2, E1. now rewrite <- !app_assoc.
  - rewrite !processed_app, P1, P2, P3. cbn [filter].
    destruct (is_set SCHEDULE_EVENT a), (is_set AUDIO_INPUT_READY_EVENT a),
      (is_set AUDIO_OUTPUT_READY_EVENT a); reflexivity.
Qed.

Lemma set_event_collapses (et : EventType) (n : nat) (a : App) :
  Nat.iter (S n) (with_event et true) a = with_event et true a.
Proof.
  induction n as [|n IH].
  - reflexivity.
  - change (Nat.iter (S (S n)) (with_event et true) a)
      with (with_event et true (Nat.iter (S n) (with_event et true) a)).
    rewrite IH. now destruct et.
Qed.

(** C3. A turn of [_main_loop] goes through the three flags in the order
    SCHEDULE, AUDIO_INPUT_READY, AUDIO_OUTPUT_READY.  A flag that is set is
    cleared, and only then is its handler called, on an object where the flag
    is already clear; a flag that is not set has no handler called.  The
    handlers a turn invokes are exactly those of the flags set, once each, in
    that order.  Setting a flag once or many times gives the same object, and
    the following turn invokes that handler exactly once. *)
Theorem C3_main_loop_tick_consumes_edges (w : World) (a : App) :
  events_order =
    [SCHEDULE_EVENT; AUDIO_INPUT_READY_EVENT; AUDIO_OUTPUT_READY_EVENT]
  /\ (forall et, is_set et a = true ->
      let cleared :=
        with_trace (trace a ++ [Log DEBUG "Processing event: %s" [AEvent et]])
                   (with_event et false a) in
      is_set et cleared = false
      /\ exec (process_event w et) a = exec (handle_event w et) cleared)
  /\ (forall et, is_set et a = false -> process_event w et a = (tt, a))
  /\ (exists l,
        trace (exec (main_loop_tick w) a) = trace a ++ l
        /\ processed l = filter (fun et => is_set et a) events_order)
  /\ (forall et n,
      let a' := Nat.iter (S n) (with_event et true) a in
      a' = with_event et true a
      /\ exists l,
           trace (exec (main_loop_tick w) a') = trace a' ++ l
           /\ List.length (filter (EventType_eqb et) (processed l)) = 1).
Proof.
  split; [reflexivity|]. split; [|split; [|split]].
  - intros et Hset cleared. split.
    + subst cleared. now destruct et.
    + rewrite process_event_spec, Hset. reflexivity.
  - intros et Hset. unfold process_event. rewrite run_bind.
    cbn [get fst snd]. now rewrite Hset.
  - apply main_loop_tick_processed.
  - intros et n a'. split; [apply set_event_collapses|].
    destruct (main_loop_tick_processed w a') as (l & El & Pl).
    exists l. split; [exact El|]. rewrite Pl.
    subst a'. rewrite set_event_collapses. unfold events_order. cbn [filter].
    rewrite !is_set_with_event.
    destruct et; cbn [EventType_eqb];
      destruct (is_set SCHEDULE_EVENT a), (is_set AUDIO_INPUT_READY_EVENT a),
        (is_set AUDIO_OUTPUT_READY_EVENT a); reflexivity.
Qed.

(** ** Transitions seen from outside *)

Lemma set_device_state_frame (w : World) (s : DeviceState) :
  sat transition_frame (set_device_state w s).
Proof. unfold transition_frame. sat_walk side_basic. Qed.

Lemma set_device_state_summary (w : World) (s : DeviceState) (a : App) :
  exists l,
    trace (exec (set_device_state w s) a) = trace a ++ l
    /\ device_state (exec (set_device_state w s) a) = s
    /\ transitions l = (if DeviceState_eqb (device_state a) s then [] else [s]).
Proof.
  destruct (DeviceState_eqb (device_state a) s) eqn:E.
  - apply DeviceState_eqb_eq in E.
    unfold exec. rewrite set_device_state_same by congruence. exists []. cbn.
    now rewrite app_nil_r.
  - apply DeviceState_eqb_neq in E.
    destruct (set_device_state_differs w a s)
      as (entry & notes & _ & Et & Es & Tr & _); [congruence|].
    exists ([AssignDeviceState s] ++ entry ++ notes). now repeat split.
Qed.

(** ** The drain, run on the dispatch thread *)

Lemma drain_spec (w : World) (a : App) :
  exec (_process_scheduled_tasks w) a =
  exec (for_each (main_tasks a) (try_task w))
    (with_trace
       (trace a ++ [Log DEBUG "Processing %d scheduled tasks"
                        [ANat (List.length (main_tasks a))]])
       (with_main_tasks [] a)).
Proof.
  unfold _process_scheduled_tasks. rewrite !exec_bind. reflexivity.
Qed.

Lemma try_task_set_device_state (w : World) (s : DeviceState) (a : App) :
  exec (try_task w (TSetDeviceState s)) a = exec (set_device_state w s) a.
Proof.
  unfold try_task, run_task. rewrite !exec_bind, !run_bind. reflexivity.
Qed.

(** A drain whose last task is a transition ends in that state. *)
Lemma drain_ends_in (w : World) (q : list Task) (s : DeviceState) (a : App) :
  main_tasks a = q ++ [TSetDeviceState s] ->
  device_state (exec (_process_scheduled_tasks w) a) = s.
Proof.
  intros Hq. rewrite drain_spec, Hq, exec_for_each_app.
  cbn [for_each]. rewrite exec_bind. cbn [pass ret exec snd].
  fold (exec (try_task w (TSetDeviceState s))
         (exec (for_each q (try_task w))
            (with_trace
               (trace a ++
                [Log DEBUG "Processing %d scheduled tasks"
                   [ANat (List.length (q ++ [TSetDeviceState s]))]])
               (with_main_tasks [] a)))).
  rewrite try_task_set_device_state.
  destruct (set_device_state_summary w s
    (exec (for_each q (try_task w))
            (with_trace
               (trace a ++
                [Log DEBUG "Processing %d scheduled tasks"
                   [ANat (List.length (q ++ [TSetDeviceState s]))]])
               (with_main_tasks [] a)))) as (l & _ & Hs & _).
  exact Hs.
Qed.

(** ** The network-error callback *)

Lemma on_network_error_effect (w : World) (a : App)
  (error_message : option string) :
  let a' := exec (_on_network_error w error_message) a in
  let t0 :=
    trace a ++
    (if truthy error_message
     then [Log ERROR "Network error: {}"
             [AStr (match error_message with Some s => s | None => "" end)]]
     else []) ++
    [AssignKeepListening false; Scheduled (TSetDeviceState IDLE)] in
  keep_listening a' = false
  /\ device_state a' = device_state a
  /\ schedule_event a' = true
  /\ main_tasks a' =
     main_tasks a ++
     TSetDeviceState IDLE ::
     (if DeviceState_eqb (device_state a) CONNECTING then []
      else [TSetDeviceState IDLE])
  /\ exists l,
       trace a' = trace a ++ l
       /\ (In WakeWordResume l <->
           wake_word_detector a = true /\ wwd_paused w t0 = true)
       /\ submitted l =
          (if negb (DeviceState_eqb (device_state a) CONNECTING) && protocol a
           then [CloseAudioChannel] else []).
Proof.
  destruct a. cbn [device_state main_tasks trace wake_word_detector protocol].
  by_cases; bool_facts; subst; rewrite <- ?app_assoc in *; cbn in *;
    repeat split; try reflexivity; try congruence.
  all: eexists; split; [reflexivity|]; cbn; split; [|reflexivity].
  all: repeat match goal with
       | H : _ && _ = false |- _ => apply andb_false_iff in H
       end.
  all: intuition (try discriminate; try congruence).
Qed.

(** C9 as the specification words it does not hold: in CONNECTING the
    callback schedules the return to IDLE and closes nothing. *)
Lemma C9_counterexample_connecting :
  ~ (forall (w : World) (a : App) (error_message : option string),
       let a' := exec (_on_network_error w error_message) a in
       keep_listening a' = false
       /\ In (TSetDeviceState IDLE) (main_tasks a')
       /\ In CloseAudioChannel (submitted (trace a'))).
Proof.
  intros H.
  destruct (H sample_world connecting_app (Some "connection lost"))
    as (_ & _ & Hclose).
  cbn in Hclose. exact Hclose.
Qed.

(** C9, amended.  Every call of [_on_network_error] clears
    [keep_listening], schedules [set_device_state(IDLE)] (so the drain that
    follows ends in IDLE; the callback itself does not assign the state),
    and resumes the wake-word detector iff one is bound and reports paused.
    It closes the audio channel iff the device state is not CONNECTING and a
    protocol is bound; it submits nothing else. *)
Theorem C9_network_error_response (w : World) (a : App)
  (error_message : option string) :
  let a' := exec (_on_network_error w error_message) a in
  let t0 :=
    trace a ++
    (if truthy error_message
     then [Log ERROR "Network error: {}"
             [AStr (match error_message with Some s => s | None => "" end)]]
     else []) ++
    [AssignKeepListening false; Scheduled (TSetDeviceState IDLE)] in
  keep_listening a' = false
  /\ device_state a' = device_state a
  /\ schedule_event a' = true
  /\ main_tasks a' =
     main_tasks a ++
     TSetDeviceState IDLE ::
     (if DeviceState_eqb (device_state a) CONNECTING then []
      else [TSetDeviceState IDLE])
  /\ device_state (exec (_process_scheduled_tasks w) a') = IDLE
  /\ exists l,
       trace a' = trace a ++ l
       /\ (In WakeWordResume l <->
           wake_word_detector a = true /\ wwd_paused w t0 = true)
       /\ submitted l =
          (if negb (DeviceState_eqb (device_state a) CONNECTING) && protocol a
           then [CloseAudioChannel] else []).
Proof.
  intros a' t0.
  destruct (on_network_error_effect w a error_message)
    as (Hk & Hs & He & Hq & Hl).
  fold a' in Hk, Hs, He, Hq, Hl. fold t0 in Hl.
  repeat split; try assumption.
  destruct (DeviceState_eqb (device_state a) CONNECTING).
  - apply (drain_ends_in w (main_tasks a)). exact Hq.
  - apply (drain_ends_in w (main_tasks a ++ [TSetDeviceState IDLE])).
    rewrite Hq, <- app_assoc. reflexivity.
Qed.

(** ** Abort *)

Lemma abort_speaking_ignored (w : World) (r : AbortReason) (a : App) :
  aborted a = true ->
  abort_speaking w r a = (tt, with_trace (trace a ++ [already_aborted r]) a).
Proof.
  intros Hab. unfold abort_speaking. rewrite run_bind. cbn [get fst snd].
  rewrite Hab. reflexivity.
Qed.

(** The effects of a non-ignored [abort_speaking], in order. *)
Lemma abort_speaking_effect (w : World) (r : AbortReason) (a : App) :
  aborted a = false ->
  exists pause,
    exec (abort_speaking w r) a =
    with_trace
      (trace a ++
       [Log INFO "Stop speech output, reason: {}" [AReason r];
        AssignAborted true; AssignIsTtsPlaying false] ++
       (if audio_codec a then [CodecClearAudioQueue] else []) ++
       pause ++ [ThreadStart (ThProcessAbort r)])
      (with_is_tts_playing false (with_aborted true a))
    /\ (pause = [] \/
        pause =
        [WakeWordPause;
         Log DEBUG
           "Temporarily pause wake word detector to avoid concurrent processing"
           [];
         Sleep 100]).
Proof.
  destruct a. cbn [aborted audio_codec trace]. intros ->.
  by_cases; rewrite <- ?app_assoc; cbn.
  all: first
    [ exists []; split; [reflexivity | now left]
    | exists [WakeWordPause;
              Log DEBUG
                "Temporarily pause wake word detector to avoid concurrent processing"
                [];
              Sleep 100];
      split; [reflexivity | now right] ].
Qed.

(** The effects of [process_abort], in order. *)
Lemma process_abort_effect (w : World) (r : AbortReason) (a : App) :
  let sent := future_result w (SendAbortSpeaking r) 1000
                (trace a ++ [Submit (SendAbortSpeaking r);
                             AwaitResult (SendAbortSpeaking r) 1000]) in
  exists report again,
    exec (process_abort w r) a =
    with_event SCHEDULE_EVENT true
      (with_main_tasks (main_tasks a ++ TSetDeviceState IDLE :: again)
         (with_trace
            (trace a ++
             [Submit (SendAbortSpeaking r);
              AwaitResult (SendAbortSpeaking r) 1000] ++
             report ++ [Scheduled (TSetDeviceState IDLE)] ++
             match again with
             | [] => []
             | _ => [Sleep 100; Scheduled TToggleChatState]
             end)
            a))
    /\ (forall v, sent = Returned v -> report = [])
    /\ (forall e, sent = Raised e ->
        report = [Log ERROR "Error sending abort command: {}" [AStr e]])
    /\ (again = [] \/ again = [TToggleChatState]).
Proof.
  destruct a. cbn [main_tasks trace].
  by_cases; rewrite <- ?app_assoc in *; cbn in *.
  all: match goal with
       | H : future_result _ _ _ _ = Returned _ |- _ => exists []
       | H : future_result _ _ _ _ = Raised ?e |- _ =>
           exists [Log ERROR "Error sending abort command: {}" [AStr e]]
       end.
  all: first
    [ exists []; split; [reflexivity|];
      repeat split; try (intros; congruence); now left
    | exists [TToggleChatState]; split; [reflexivity|];
      repeat split; try (intros; congruence); now right ].
Qed.

Lemma before_intro (e1 e2 : Effect) (t1 t2 t3 : Trace) :
  before e1 e2 (t1 ++ e1 :: t2 ++ e2 :: t3).
Proof. now exists t1, t2, t3. Qed.

Lemma before_here (e1 e2 : Effect) (t : Trace) :
  In e2 t -> before e1 e2 (e1 :: t).
Proof.
  intros Hin. apply in_split in Hin. destruct Hin as (t2 & t3 & ->).
  now exists [], t2, t3.
Qed.

Lemma before_cons (e1 e2 x : Effect) (t : Trace) :
  before e1 e2 t -> before e1 e2 (x :: t).
Proof. intros (t1 & t2 & t3 & ->). now exists (x :: t1), t2, t3. Qed.

(** Decide [before] on an explicit trace. *)
Ltac before_explicit :=
  repeat first [ apply before_here; cbn; tauto | apply before_cons ].

Lemma before_across (e1 e2 : Effect) (t t' : Trace) :
  In e1 t -> In e2 t' -> before e1 e2 (t ++ t').
Proof.
  intros H1 H2. apply in_split in H1. apply in_split in H2.
  destruct H1 as (t1 & t2 & ->). destruct H2 as (t3 & t4 & ->).
  exists t1, (t2 ++ t3), t4. rewrite <- ?app_assoc. cbn.
  now rewrite <- ?app_assoc.
Qed.

(** C5. A call of [abort_speaking] that is not ignored logs the request,
    sets [aborted], clears [is_tts_playing] and, when an audio codec is
    bound, flushes its queue, all on the calling thread and in that order;
    it may then pause the wake-word detector, and it starts the thread
    [process_abort] last.  Only that thread submits the abort message; it
    waits for the result at most 1000 ms; a failure of the send is logged and
    nothing more; in either case [set_device_state(IDLE)] is scheduled
    next. *)
Theorem C5_abort_speaking_flushes_before_sending
  (w : World) (r : AbortReason) (a : App) :
  aborted a = false ->
  let a1 := exec (abort_speaking w r) a in
  let a2 := exec (abort_then_process w r) a in
  let send := Submit (SendAbortSpeaking r) in
  let wait := AwaitResult (SendAbortSpeaking r) 1000 in
  let sent := future_result w (SendAbortSpeaking r) 1000
                (trace a1 ++ [send; wait]) in
  exists pause report again,
    trace a1 =
      trace a ++
      [Log INFO "Stop speech output, reason: {}" [AReason r];
       AssignAborted true; AssignIsTtsPlaying false] ++
      (if audio_codec a then [CodecClearAudioQueue] else []) ++
      pause ++ [ThreadStart (ThProcessAbort r)]
    /\ submitted pause = []
    /\ aborted a1 = true
    /\ is_tts_playing a1 = false
    /\ main_tasks a1 = main_tasks a
    /\ trace a2 =
       trace a1 ++ [send; wait] ++ report ++
       [Scheduled (TSetDeviceState IDLE)] ++
       match again with
       | [] => []
       | _ => [Sleep 100; Scheduled TToggleChatState]
       end
    /\ (forall v, sent = Returned v -> report = [])
    /\ (forall e, sent = Raised e ->
        report = [Log ERROR "Error sending abort command: {}" [AStr e]])
    /\ main_tasks a2 = main_tasks a ++ TSetDeviceState IDLE :: again
    /\ before (AssignAborted true) send (trace a2)
    /\ before (AssignIsTtsPlaying false) send (trace a2)
    /\ (audio_codec a = true ->
        before CodecClearAudioQueue send (trace a2)).
Proof.
  intros Hab a1 a2 send wait sent.
  destruct (abort_speaking_effect w r a Hab) as (pause & E1 & Hp).
  fold a1 in E1.
  assert (E2 : a2 = exec (process_abort w r) a1).
  { unfold a2, abort_then_process. now rewrite exec_bind. }
  destruct (process_abort_effect w r a1) as (report & again & E3 & R1 & R2 & _).
  rewrite <- E2 in E3. fold send wait sent in E3, R1, R2.
  assert (T1 : trace a1 =
      trace a ++
      [Log INFO "Stop speech output, reason: {}" [AReason r];
       AssignAborted true; AssignIsTtsPlaying false] ++
      (if audio_codec a then [CodecClearAudioQueue] else []) ++
      pause ++ [ThreadStart (ThProcessAbort r)]) by now rewrite E1.
  assert (T2 : trace a2 =
       trace a1 ++ [send; wait] ++ report ++
       [Scheduled (TSetDeviceState IDLE)] ++
       match again with
       | [] => []
       | _ => [Sleep 100; Scheduled TToggleChatState]
       end) by now rewrite E3.
  exists pause, report, again.
  split; [exact T1|]. split; [destruct Hp as [-> | ->]; reflexivity|].
  split; [now rewrite E1|]. split; [now rewrite E1|].
  split; [now rewrite E1|]. split; [exact T2|].
  split; [exact R1|]. split; [exact R2|].
  split; [rewrite E3, E1; reflexivity|].
  assert (Hsend : In send ([send; wait] ++ report ++
       [Scheduled (TSetDeviceState IDLE)] ++
       match again with
       | [] => []
       | _ => [Sleep 100; Scheduled TToggleChatState]
       end)) by now left.
  split; [|split].
  - rewrite T2. apply before_across; [|exact Hsend].
    rewrite T1. apply in_or_app. right. cbn. tauto.
  - rewrite T2. apply before_across; [|exact Hsend].
    rewrite T1. apply in_or_app. right. cbn. tauto.
  - intros Hc. rewrite T2. apply before_across; [|exact Hsend].
    rewrite T1, Hc. apply in_or_app. right. cbn. tauto.
Qed.

(** From "all effects of [t] are silent for these projections" to "this
    projection of [t] is empty". *)
Ltac projection_empty H :=
  apply silent_trace; revert H; apply Forall_weaken;
  intros ? ?; unfold silent in *; tauto.

(** The effects of a call of [abort_speaking] that may be absent and is
    ignored if present. *)
Lemma second_abort_ignored (w : World) (r : AbortReason) (b : bool) (a : App) :
  aborted a = true ->
  exists ign,
    exec (when b (abort_speaking w r)) a = with_trace (trace a ++ ign) a
    /\ (ign = [] \/ ign = [already_aborted r]).
Proof.
  intros Hab. destruct b; cbn [when].
  - exists [already_aborted r]. unfold exec.
    rewrite abort_speaking_ignored by exact Hab. split; [reflexivity | now right].
  - exists []. split; [|now left]. cbn. rewrite app_nil_r. now destruct a.
Qed.

Lemma toggle_chat_state_frame : sat quiet_frame toggle_chat_state.
Proof. unfold quiet_frame. sat_walk side_basic. Qed.

Lemma try_task_toggle_chat_state (w : World) (a : App) :
  exec (try_task w TToggleChatState) a = exec toggle_chat_state a.
Proof.
  unfold try_task, run_task. rewrite !exec_bind, !run_bind. reflexivity.
Qed.

(** The drain that follows an abort while speaking: one transition, to
    IDLE; no control message, no thread. *)
Lemma drain_after_abort (w : World) (again : list Task) (a : App) :
  main_tasks a = TSetDeviceState IDLE :: again ->
  again = [] \/ again = [TToggleChatState] ->
  device_state a = SPEAKING ->
  exists l,
    trace (exec (_process_scheduled_tasks w) a) = trace a ++ l
    /\ transitions l = [IDLE]
    /\ control_messages l = []
    /\ threads_started l = []
    /\ device_state (exec (_process_scheduled_tasks w) a) = IDLE
    /\ aborted (exec (_process_scheduled_tasks w) a) = aborted a.
Proof.
  intros Hq Hagain Hs. rewrite drain_spec, Hq.
  set (a0 := with_trace _ _).
  cbn [for_each]. rewrite exec_bind.
  fold (exec (try_task w (TSetDeviceState IDLE)) a0).
  rewrite try_task_set_device_state.
  destruct (set_device_state_summary w IDLE a0) as (l1 & E1 & S1 & T1).
  destruct (set_device_state_frame w IDLE a0)
    as (_ & A1 & _ & _ & _ & _ & _ & _ & _ & l1' & E1' & F1).
  unfold keeps in A1.
  set (a1 := exec (set_device_state w IDLE) a0) in *.
  assert (l1' = l1) by (rewrite E1 in E1'; now apply app_inv_head in E1').
  subst l1'.
  assert (Hs0 : device_state a0 = SPEAKING) by (subst a0; exact Hs).
  rewrite Hs0 in T1. cbn in T1.
  assert (C1 : control_messages l1 = []) by projection_empty F1.
  assert (H1 : threads_started l1 = []) by projection_empty F1.
  destruct Hagain as [-> | ->].
  - cbn [for_each pass ret exec snd].
    exists (Log DEBUG "Processing %d scheduled tasks" [ANat 1] :: l1).
    repeat split.
    + rewrite E1. subst a0. cbn. now rewrite <- app_assoc.
    + cbn. exact T1.
    + cbn. exact C1.
    + cbn. exact H1.
    + exact S1.
    + rewrite A1. now subst a0.
  - cbn [for_each]. rewrite exec_bind. cbn [pass ret exec snd].
    fold (exec (try_task w TToggleChatState) a1).
    rewrite try_task_toggle_chat_state.
    destruct (toggle_chat_state_frame a1) as (S2 & A2 & l2 & E2 & F2).
    unfold keeps in S2, A2.
    exists (Log DEBUG "Processing %d scheduled tasks" [ANat 2] :: l1 ++ l2).
    repeat split.
    + rewrite E2, E1. subst a0. cbn. now rewrite <- !app_assoc.
    + cbn. rewrite transitions_app, T1.
      assert (T2 : transitions l2 = []) by projection_empty F2.
      now rewrite T2.
    + cbn. rewrite control_messages_app, C1.
      assert (C2 : control_messages l2 = []) by projection_empty F2.
      now rewrite C2.
    + cbn. rewrite threads_started_app, H1.
      assert (H2 : threads_started l2 = []) by projection_empty F2.
      now rewrite H2.
    + rewrite S2. exact S1.
    + rewrite A2, A1. now subst a0.
Qed.

Lemma two_aborts_steps (w : World) (r1 r2 : AbortReason) (pos : nat) (a : App) :
  exec (two_aborts w r1 r2 pos) a =
  exec (when (Nat.eqb pos 2) (abort_speaking w r2))
    (exec (_process_scheduled_tasks w)
       (exec (when (Nat.eqb pos 1) (abort_speaking w r2))
          (exec (process_abort w r1)
             (exec (when (Nat.eqb pos 0) (abort_speaking w r2))
                (exec (abort_speaking w r1) a))))).
Proof. unfold two_aborts. now rewrite !exec_bind. Qed.

Lemma two_aborts_effect (w : World) (r1 r2 : AbortReason) (pos : nat)
  (a : App) :
  aborted a = false ->
  device_state a = SPEAKING ->
  main_tasks a = [] ->
  let a' := exec (two_aborts w r1 r2 pos) a in
  exists l,
    trace a' = trace a ++ l
    /\ control_messages l = [SendAbortSpeaking r1]
    /\ threads_started l = [ThProcessAbort r1]
    /\ transitions l = [IDLE]
    /\ device_state a' = IDLE
    /\ aborted a' = true.
Proof.
  intros Hab Hs Hq a'. subst a'. rewrite two_aborts_steps.
  destruct (abort_speaking_effect w r1 a Hab) as (pause & E1 & Hp).
  set (a1 := exec (abort_speaking w r1) a) in *.
  assert (Ab1 : aborted a1 = true) by now rewrite E1.
  destruct (second_abort_ignored w r2 (Nat.eqb pos 0) a1 Ab1)
    as (i1 & E1' & Hi1).
  set (a1' := exec (when (Nat.eqb pos 0) (abort_speaking w r2)) a1) in *.
  destruct (process_abort_effect w r1 a1')
    as (report & again & E2 & R1 & R2 & Hagain).
  set (a2 := exec (process_abort w r1) a1') in *.
  assert (Ab2 : aborted a2 = true) by now rewrite E2, E1'.
  destruct (second_abort_ignored w r2 (Nat.eqb pos 1) a2 Ab2)
    as (i2 & E2' & Hi2).
  set (a2' := exec (when (Nat.eqb pos 1) (abort_speaking w r2)) a2) in *.
  assert (Q2 : main_tasks a2' = TSetDeviceState IDLE :: again).
  { rewrite E2', E2, E1', E1. cbn. now rewrite Hq. }
  assert (S2 : device_state a2' = SPEAKING).
  { rewrite E2', E2, E1', E1. cbn. exact Hs. }
  destruct (drain_after_abort w again a2' Q2 Hagain S2)
    as (l3 & E3 & T3 & C3 & H3 & S3 & A3).
  set (a3 := exec (_process_scheduled_tasks w) a2') in *.
  assert (Ab3 : aborted a3 = true).
  { rewrite A3, E2'. cbn. exact Ab2. }
  destruct (second_abort_ignored w r2 (Nat.eqb pos 2) a3 Ab3)
    as (i3 & E3' & Hi3).
  rewrite E3'. cbn [trace with_trace device_state aborted].
  eexists. split; [|split; [|split; [|split; [|split]]]].
  - rewrite E3, E2', E2, E1', E1. cbn [trace with_trace with_event
      with_main_tasks with_is_tts_playing with_aborted].
    rewrite <- !app_assoc. reflexivity.
  - rewrite !control_messages_app, C3.
    assert (Hrep : control_messages report = []).
    { destruct (future_result w (SendAbortSpeaking r1) 1000
                  (trace a1' ++ [Submit (SendAbortSpeaking r1);
                                 AwaitResult (SendAbortSpeaking r1) 1000]))
        as [v|e] eqn:Er.
      - now rewrite (R1 v eq_refl).
      - now rewrite (R2 e eq_refl). }
    rewrite Hrep.
    destruct Hp as [-> | ->], Hi1 as [-> | ->], Hi2 as [-> | ->],
      Hi3 as [-> | ->], Hagain as [-> | ->], (audio_codec a); reflexivity.
  - rewrite !threads_started_app, H3.
    assert (Hrep : threads_started report = []).
    { destruct (future_result w (SendAbortSpeaking r1) 1000
                  (trace a1' ++ [Submit (SendAbortSpeaking r1);
                                 AwaitResult (SendAbortSpeaking r1) 1000]))
        as [v|e] eqn:Er.
      - now rewrite (R1 v eq_refl).
      - now rewrite (R2 e eq_refl). }
    rewrite Hrep.
    destruct Hp as [-> | ->], Hi1 as [-> | ->], Hi2 as [-> | ->],
      Hi3 as [-> | ->], Hagain as [-> | ->], (audio_codec a); reflexivity.
  - rewrite !transitions_app, T3.
    assert (Hrep : transitions report = []).
    { destruct (future_result w (SendAbortSpeaking r1) 1000
                  (trace a1' ++ [Submit (SendAbortSpeaking r1);
                                 AwaitResult (SendAbortSpeaking r1) 1000]))
        as [v|e] eqn:Er.
      - now rewrite (R1 v eq_refl).
      - now rewrite (R2 e eq_refl). }
    rewrite Hrep.
    destruct Hp as [-> | ->], Hi1 as [-> | ->], Hi2 as [-> | ->],
      Hi3 as [-> | ->], Hagain as [-> | ->], (audio_codec a); reflexivity.
  - exact S3.
  - exact Ab3.
Qed.

(** C4. A call of [abort_speaking] made while [aborted] is true only logs
    a debug record: nothing else of the object changes, nothing is sent, no
    thread is started.  So when a second call follows a first one before any
    TTS start (right after it, after its thread, or after the next drain),
    the whole run sends one abort message, starts one abort thread and makes
    one transition, to IDLE. *)
Theorem C4_abort_speaking_idempotent
  (w : World) (r1 r2 : AbortReason) (pos : nat) (a : App) :
  (aborted a = true ->
   abort_speaking w r2 a =
   (tt, with_trace
          (trace a ++
           [Log DEBUG "Already aborted, ignoring repeated abort request: {}"
                [AReason r2]])
          a))
  /\ (aborted a = false -> device_state a = SPEAKING -> main_tasks a = [] ->
      let a' := exec (two_aborts w r1 r2 pos) a in
      exists l,
        trace a' = trace a ++ l
        /\ control_messages l = [SendAbortSpeaking r1]
        /\ threads_started l = [ThProcessAbort r1]
        /\ transitions l = [IDLE]
        /\ device_state a' = IDLE
        /\ aborted a' = true).
Proof.
  split.
  - apply abort_speaking_ignored.
  - apply two_aborts_effect.
Qed.

(** ** Manual start of listening *)

(** Outside IDLE the closure opens nothing, sends no control message and
    schedules nothing. *)
Lemma start_listening_impl_not_idle (w : World) (a : App) :
  device_state a <> IDLE ->
  let a' := exec (_start_listening_impl w) a in
  main_tasks a' = main_tasks a
  /\ device_state a' = device_state a
  /\ exists l, trace a' = trace a ++ l
               /\ control_messages l = [] /\ awaited l = [].
Proof.
  destruct a as [s]. cbn [device_state main_tasks trace]. intros Hs.
  destruct s; try congruence.
  all: by_cases; rewrite <- ?app_assoc; cbn; repeat split; try reflexivity.
  all: try (eexists; split; [reflexivity | split; reflexivity]).
  all: exists []; rewrite app_nil_r; repeat split.
Qed.

(** From IDLE: what the closure does before it returns. *)
Lemma start_listening_impl_idle (w : World) (a : App) :
  device_state a = IDLE ->
  protocol a = true ->
  let a' := exec (_start_listening_impl w) a in
  let t0 := trace a ++ [AssignKeepListening false] ++
            (if wake_word_detector a then [WakeWordPause] else []) ++
            [Scheduled (TSetDeviceState CONNECTING)] in
  let opened := is_audio_channel_opened w t0 in
  let t1 := t0 ++ [Submit OpenAudioChannel;
                   AwaitResult OpenAudioChannel 10000] in
  let result := future_result w OpenAudioChannel 10000 t1 in
  let reinit :=
    codec_reinitialize_input_stream w
      ((if opened then t0 else t1) ++ [CodecReinitializeInputStream]) in
  exists l next,
    trace a' = trace a ++ l
    /\ main_tasks a' =
       main_tasks a ++ [TSetDeviceState CONNECTING; TSetDeviceState next]
    /\ device_state a' = IDLE
    /\ aborted a' = aborted a
    /\ transitions l = []
    /\ awaited l = (if opened then [] else [(OpenAudioChannel, 10000%Z)])
    /\ before (Scheduled (TSetDeviceState CONNECTING))
              (Scheduled (TSetDeviceState next)) l
    /\ (opened = false ->
        before (Scheduled (TSetDeviceState CONNECTING))
               (AwaitResult OpenAudioChannel 10000) l)
    /\ (opened = false -> result <> Returned true ->
        next = IDLE /\ alerts l <> []
        /\ control_messages l = [OpenAudioChannel])
    /\ (opened = true \/ result = Returned true ->
        audio_codec a = false \/ reinit = Returned tt ->
        next = LISTENING
        /\ control_messages l =
           (if opened then [] else [OpenAudioChannel]) ++
           [SendStartListening MANUAL]
        /\ before (Submit (SendStartListening MANUAL))
                  (Scheduled (TSetDeviceState LISTENING)) l
        /\ (audio_codec a = true ->
            before CodecReinitializeInputStream
                   (Submit (SendStartListening MANUAL)) l)).
Proof.
  destruct a.
  cbn [device_state protocol main_tasks trace wake_word_detector audio_codec].
  intros -> ->.
  by_cases; rewrite <- ?app_assoc in *; cbn in *; try congruence.
  all: match goal with
       | |- exists l next, {| trace := _ ++ ?t |}.(trace) = _ /\ _ => idtac
       | |- exists l next, _ ++ ?t = _ /\ _ ++ [_; TSetDeviceState ?s] = _ /\ _ =>
           exists t, s
       end.
  all: repeat split; try reflexivity;
       try (intros; exfalso; intuition congruence);
       try (intros; discriminate).
  all: intros; before_explicit.
Qed.

Lemma before_app_l (e1 e2 : Effect) (t t' : Trace) :
  before e1 e2 t -> before e1 e2 (t ++ t').
Proof.
  intros (t1 & t2 & t3 & ->). exists t1, t2, (t3 ++ t').
  rewrite <- !app_assoc. cbn. rewrite <- !app_assoc. reflexivity.
Qed.

(** A drain of two transitions. *)
Lemma drain_two_transitions (w : World) (s1 s2 : DeviceState) (a : App) :
  main_tasks a = [TSetDeviceState s1; TSetDeviceState s2] ->
  exists l,
    trace (exec (_process_scheduled_tasks w) a) = trace a ++ l
    /\ transitions l =
       (if DeviceState_eqb (device_state a) s1 then [] else [s1]) ++
       (if DeviceState_eqb s1 s2 then [] else [s2])
    /\ control_messages l = []
    /\ awaited l = []
    /\ alerts l = []
    /\ device_state (exec (_process_scheduled_tasks w) a) = s2.
Proof.
  intros Hq. rewrite drain_spec, Hq.
  set (a0 := with_trace _ _).
  cbn [for_each]. rewrite !exec_bind. cbn [pass ret exec snd].
  fold (exec (try_task w (TSetDeviceState s1)) a0).
  rewrite try_task_set_device_state.
  destruct (set_device_state_summary w s1 a0) as (l1 & E1 & S1 & T1).
  destruct (set_device_state_frame w s1 a0)
    as (_ & _ & _ & _ & _ & _ & _ & _ & _ & l1' & E1' & F1).
  set (a1 := exec (set_device_state w s1) a0) in *.
  assert (l1' = l1) by (rewrite E1 in E1'; now apply app_inv_head in E1').
  subst l1'.
  fold (exec (try_task w (TSetDeviceState s2)) a1).
  rewrite try_task_set_device_state.
  destruct (set_device_state_summary w s2 a1) as (l2 & E2 & S2 & T2).
  destruct (set_device_state_frame w s2 a1)
    as (_ & _ & _ & _ & _ & _ & _ & _ & _ & l2' & E2' & F2).
  set (a2 := exec (set_device_state w s2) a1) in *.
  assert (l2' = l2) by (rewrite E2 in E2'; now apply app_inv_head in E2').
  subst l2'.
  rewrite S1 in T2.
  assert (Hs0 : device_state a0 = device_state a) by now subst a0.
  rewrite Hs0 in T1. subst a2 a1.
  exists (Log DEBUG "Processing %d scheduled tasks" [ANat 2] :: l1 ++ l2).
  repeat split.
  - rewrite E2, E1. subst a0. cbn. now rewrite <- !app_assoc.
  - cbn. now rewrite transitions_app, T1, T2.
  - cbn. rewrite control_messages_app.
    assert (C1 : control_messages l1 = []) by projection_empty F1.
    assert (C2 : control_messages l2 = []) by projection_empty F2.
    now rewrite C1, C2.
  - cbn. rewrite awaited_app.
    assert (C1 : awaited l1 = []) by projection_empty F1.
    assert (C2 : awaited l2 = []) by projection_empty F2.
    now rewrite C1, C2.
  - cbn. rewrite alerts_app.
    assert (C1 : alerts l1 = []) by projection_empty F1.
    assert (C2 : alerts l2 = []) by projection_empty F2.
    now rewrite C1, C2.
  - exact S2.
Qed.

Lemma start_listening_flow (w : World) (a : App) :
  device_state a = IDLE ->
  protocol a = true ->
  main_tasks a = [] ->
  let a' := exec (start_listening_then_drain w) a in
  let t0 := trace a ++ [AssignKeepListening false] ++
            (if wake_word_detector a then [WakeWordPause] else []) ++
            [Scheduled (TSetDeviceState CONNECTING)] in
  let opened := is_audio_channel_opened w t0 in
  let t1 := t0 ++ [Submit OpenAudioChannel;
                   AwaitResult OpenAudioChannel 10000] in
  let result := future_result w OpenAudioChannel 10000 t1 in
  let reinit :=
    codec_reinitialize_input_stream w
      ((if opened then t0 else t1) ++ [CodecReinitializeInputStream]) in
  exists l,
    trace a' = trace a ++ l
    /\ awaited l = (if opened then [] else [(OpenAudioChannel, 10000%Z)])
    /\ (opened = false ->
        before (Scheduled (TSetDeviceState CONNECTING))
               (AwaitResult OpenAudioChannel 10000) l)
    /\ (opened = false -> result <> Returned true ->
        transitions l = [CONNECTING; IDLE]
        /\ device_state a' = IDLE
        /\ alerts l <> []
        /\ control_messages l = [OpenAudioChannel])
    /\ (opened = true \/ result = Returned true ->
        audio_codec a = false \/ reinit = Returned tt ->
        transitions l = [CONNECTING; LISTENING]
        /\ device_state a' = LISTENING
        /\ control_messages l =
           (if opened then [] else [OpenAudioChannel]) ++
           [SendStartListening MANUAL]
        /\ before (Submit (SendStartListening MANUAL))
                  (AssignDeviceState LISTENING) l
        /\ (audio_codec a = true ->
            before CodecReinitializeInputStream
                   (Submit (SendStartListening MANUAL)) l)).
Proof.
  intros Hs Hp Hq a' t0 opened t1 result reinit.
  destruct (start_listening_impl_idle w a Hs Hp)
    as (l1 & next & E1 & Q1 & S1 & _ & T1 & W1 & _ & Hwait & Hfail & Hok).
  fold t0 opened t1 result reinit in W1, Hwait, Hfail, Hok.
  set (a1 := exec (_start_listening_impl w) a) in *.
  rewrite Hq in Q1. cbn [app] in Q1.
  destruct (drain_two_transitions w CONNECTING next a1 Q1)
    as (l2 & E2 & T2 & C2 & W2 & A2 & S2).
  assert (Ea : a' = exec (_process_scheduled_tasks w) a1).
  { unfold a', start_listening_then_drain. now rewrite exec_bind. }
  rewrite <- Ea in E2, S2. rewrite S1 in T2. cbn in T2.
  exists (l1 ++ l2). split; [|split; [|split; [|split]]].
  - now rewrite E2, E1, app_assoc.
  - now rewrite awaited_app, W1, W2, app_nil_r.
  - intros Hclosed. apply before_app_l. now apply Hwait.
  - intros Hclosed Hresult.
    destruct (Hfail Hclosed Hresult) as (-> & Al & Cl). repeat split.
    + now rewrite transitions_app, T1, T2.
    + exact S2.
    + rewrite alerts_app, A2, app_nil_r. exact Al.
    + now rewrite control_messages_app, Cl, C2.
  - intros Hopen Hreinit.
    destruct (Hok Hopen Hreinit) as (-> & Cl & Hsent & Hb). repeat split.
    + now rewrite transitions_app, T1, T2.
    + exact S2.
    + now rewrite control_messages_app, Cl, C2, app_nil_r.
    + apply before_across.
      * destruct Hsent as (x1 & x2 & x3 & ->).
        apply in_or_app. right. now left.
      * apply (transitions_in LISTENING). rewrite T2. cbn. tauto.
    + intros Hc. apply before_app_l. now apply Hb.
Qed.

(** C7. [_start_listening_impl] starts the listening flow from IDLE only:
    from any other state it schedules nothing, opens nothing and sends no
    control message.  From IDLE, with a protocol bound, it first schedules
    the transition to CONNECTING and then, unless the channel is already
    open, opens it and waits for the result at most 10000 ms.  If the channel
    does not open (the result is false, the wait times out or the call
    raises), an alert is raised and the return to IDLE is scheduled: the
    next drain makes the transitions CONNECTING, IDLE and never assigns
    LISTENING, and no start-listening message is sent.  If the channel is
    open and the input stream reinitialisation returns, the input stream is
    reinitialised, then one start-listening message tagged MANUAL is sent,
    and the next drain makes the transitions CONNECTING, LISTENING. *)
Theorem C7_manual_start_listening (w : World) (a : App) :
  (device_state a <> IDLE ->
   let a' := exec (_start_listening_impl w) a in
   main_tasks a' = main_tasks a
   /\ device_state a' = device_state a
   /\ exists l, trace a' = trace a ++ l
                /\ control_messages l = [] /\ awaited l = [])
  /\ (device_state a = IDLE -> protocol a = true -> main_tasks a = [] ->
      let a' := exec (start_listening_then_drain w) a in
      let t0 := trace a ++ [AssignKeepListening false] ++
                (if wake_word_detector a then [WakeWordPause] else []) ++
                [Scheduled (TSetDeviceState CONNECTING)] in
      let opened := is_audio_channel_opened w t0 in
      let t1 := t0 ++ [Submit OpenAudioChannel;
                       AwaitResult OpenAudioChannel 10000] in
      let result := future_result w OpenAudioChannel 10000 t1 in
      let reinit :=
        codec_reinitialize_input_stream w
          ((if opened then t0 else t1) ++ [CodecReinitializeInputStream]) in
      exists l,
        trace a' = trace a ++ l
        /\ awaited l = (if opened then [] else [(OpenAudioChannel, 10000%Z)])
        /\ (opened = false ->
            before (Scheduled (TSetDeviceState CONNECTING))
                   (AwaitResult OpenAudioChannel 10000) l)
        /\ (opened = false -> result <> Returned true ->
            transitions l = [CONNECTING; IDLE]
            /\ device_state a' = IDLE
            /\ alerts l <> []
            /\ control_messages l = [OpenAudioChannel])
        /\ (opened = true \/ result = Returned true ->
            audio_codec a = false \/ reinit = Returned tt ->
            transitions l = [CONNECTING; LISTENING]
            /\ device_state a' = LISTENING
            /\ control_messages l =
               (if opened then [] else [OpenAudioChannel]) ++
               [SendStartListening MANUAL]
            /\ before (Submit (SendStartListening MANUAL))
                      (AssignDeviceState LISTENING) l
            /\ (audio_codec a = true ->
                before CodecReinitializeInputStream
                       (Submit (SendStartListening MANUAL)) l))).
Proof.
  split.
  - apply start_listening_impl_not_idle.
  - apply start_listening_flow.
Qed.

(** ** Who writes [aborted] *)

Lemma keeps_aborted_set_device_state (w : World) (s : DeviceState) (a : App) :
  aborted (exec (set_device_state w s) a) = aborted a.
Proof.
  destruct (set_device_state_frame w s a) as (_ & Hab & _). exact Hab.
Qed.

Lemma keeps_aborted_stop_listening_impl (w : World) :
  sat (keeps aborted) (_stop_listening_impl w).
Proof. sat_walk side_basic. Qed.

Lemma keeps_aborted_process_abort (w : World) (r : AbortReason) :
  sat (keeps aborted) (process_abort w r).
Proof. sat_walk side_basic. Qed.

Lemma keeps_aborted_toggle_chat_state : sat (keeps aborted) toggle_chat_state.
Proof. sat_walk side_basic. Qed.

Lemma keeps_aborted_on_network_error (w : World) (m : option string) :
  sat (keeps aborted) (_on_network_error w m).
Proof. sat_walk side_basic. Qed.

Lemma keeps_aborted_handle_input_audio (w : World) :
  sat (keeps aborted) (_handle_input_audio w).
Proof. sat_walk side_basic. Qed.

Lemma keeps_aborted_output_trigger_tick (w : World) :
  sat (keeps aborted) (output_trigger_tick w).
Proof. sat_walk side_basic. Qed.

Lemma handle_tts_start_clears (a : App) :
  aborted (exec _handle_tts_start a) = false.
Proof.
  destruct a. by_cases; reflexivity.
Qed.

(** [abort_speaking] has no test on the device state. *)
Lemma abort_speaking_sets_aborted (w : World) (r : AbortReason) (a : App) :
  aborted (exec (abort_speaking w r) a) = true.
Proof.
  destruct (aborted a) eqn:Hab.
  - unfold exec. rewrite abort_speaking_ignored by exact Hab. exact Hab.
  - destruct (abort_speaking_effect w r a Hab) as (pause & E & _).
    now rewrite E.
Qed.

(** The three closures that call [abort_speaking] do so in SPEAKING only. *)
Lemma start_listening_impl_aborted (w : World) (a : App) :
  aborted (exec (_start_listening_impl w) a) = aborted a
  \/ device_state a = SPEAKING.
Proof.
  destruct (protocol a) eqn:Hp.
  - destruct (device_state a) eqn:Hs; [left | left | left | now right].
    + now destruct (start_listening_impl_idle w a Hs Hp)
        as (l & next & _ & _ & _ & H & _).
    + destruct a; cbn [device_state protocol] in Hs, Hp; subst;
        by_cases; reflexivity.
    + destruct a; cbn [device_state protocol] in Hs, Hp; subst;
        by_cases; reflexivity.
  - left. destruct a; cbn [protocol] in Hp; subst. by_cases; reflexivity.
Qed.

Lemma toggle_chat_state_impl_aborted (w : World) (a : App) :
  aborted (exec (_toggle_chat_state_impl w) a) = aborted a
  \/ device_state a = SPEAKING.
Proof.
  destruct (device_state a) eqn:Hs; [left | left | left | now right].
  all: destruct a; cbn [device_state] in Hs; subst;
       by_cases; reflexivity.
Qed.

Lemma handle_wake_word_detected_aborted (w : World) (ww : string) (a : App) :
  aborted (exec (_handle_wake_word_detected w ww) a) = aborted a
  \/ device_state a = SPEAKING.
Proof.
  destruct (device_state a) eqn:Hs; [left | left | left | now right].
  all: destruct a; cbn [device_state] in Hs; subst;
       by_cases; reflexivity.
Qed.

Lemma try_task_body (w : World) (t : Task) (a : App) :
  exec (try_task w t) a =
  match t with
  | TSetDeviceState s => exec (set_device_state w s) a
  | TStartListeningImpl => exec (_start_listening_impl w) a
  | TStopListeningImpl => exec (_stop_listening_impl w) a
  | TToggleChatState => exec toggle_chat_state a
  | TToggleChatStateImpl => exec (_toggle_chat_state_impl w) a
  | THandleTtsStart => exec _handle_tts_start a
  | THandleWakeWordDetected ww => exec (_handle_wake_word_detected w ww) a
  end.
Proof.
  unfold try_task, run_task. rewrite !exec_bind, !run_bind.
  destruct t; reflexivity.
Qed.

(** An operation keeps [aborted], or it is the handling of TTS start (which
    clears it), or it is the display's abort callback, or the device is
    speaking. *)
Lemma perform_aborted (w : World) (op : Operation) (a : App) :
  aborted (exec (perform w op) a) = aborted a
  \/ (op = OpTask THandleTtsStart /\ aborted (exec (perform w op) a) = false)
  \/ (op = OpAbortCallback /\ aborted (exec (perform w op) a) = true)
  \/ (device_state a = SPEAKING /\ aborted (exec (perform w op) a) = true).
Proof.
  destruct op as [t| r | | | | | m | data | ww ft | | | | cb]; cbn [perform].
  - rewrite try_task_body. destruct t.
    + left. apply keeps_aborted_set_device_state.
    + destruct (start_listening_impl_aborted w a) as [H|H]; [now left|].
      destruct (aborted (exec (_start_listening_impl w) a)) eqn:E.
      * right. right. right. now split.
      * destruct (aborted a) eqn:Ea; [|now left].
        exfalso. destruct a. cbn in H, Ea. subst. revert E. by_cases.
        all: discriminate.
    + left. apply keeps_aborted_stop_listening_impl.
    + left. apply keeps_aborted_toggle_chat_state.
    + destruct (toggle_chat_state_impl_aborted w a) as [H|H]; [now left|].
      destruct (aborted (exec (_toggle_chat_state_impl w) a)) eqn:E.
      * right. right. right. now split.
      * destruct (aborted a) eqn:Ea; [|now left].
        exfalso. destruct a. cbn in H, Ea. subst. revert E. by_cases.
        all: discriminate.
    + right. left. split; [reflexivity | apply handle_tts_start_clears].
    + destruct (handle_wake_word_detected_aborted w wake_word a) as [H|H];
        [now left|].
      destruct (aborted (exec (_handle_wake_word_detected w wake_word) a))
        eqn:E.
      * right. right. right. now split.
      * destruct (aborted a) eqn:Ea; [|now left].
        exfalso. destruct a. cbn in H, Ea. subst. revert E. by_cases.
        all: discriminate.
  - left. apply keeps_aborted_process_abort.
  - right. right. left. split; [reflexivity|].
    apply abort_speaking_sets_aborted.
  - left. reflexivity.
  - left. reflexivity.
  - left. apply keeps_aborted_toggle_chat_state.
  - left. apply keeps_aborted_on_network_error.
  - left. unfold _on_incoming_audio. rewrite exec_bind. cbn [get fst snd exec].
    destruct (DeviceState_eqb (device_state a) SPEAKING); reflexivity.
  - left. reflexivity.
  - left. apply keeps_aborted_handle_input_audio.
  - left. unfold _handle_output_audio. rewrite exec_bind.
    cbn [get fst snd exec].
    destruct (DeviceState_eqb (device_state a) SPEAKING); reflexivity.
  - left. apply keeps_aborted_output_trigger_tick.
  - left. reflexivity.
Qed.

(** Who writes [aborted].  It goes from false to true only through
    [abort_speaking]: the closures of the orchestrator (manual listen,
    toggle, wake word) reach it only when the device state is SPEAKING; the
    display's abort callback is the one entry point that reaches it without
    that test.  It goes from true to false only through the handling of the
    TTS start. *)
Lemma aborted_writers (w : World) (op : Operation) (a : App) :
  (aborted a = false -> aborted (exec (perform w op) a) = true ->
   op = OpAbortCallback \/ device_state a = SPEAKING)
  /\ (aborted a = true -> aborted (exec (perform w op) a) = false ->
      op = OpTask THandleTtsStart)
  /\ (forall r, aborted (exec (abort_speaking w r) a) = true)
  /\ aborted (exec _handle_tts_start a) = false.
Proof.
  split; [|split; [|split]].
  - intros H0 H1.
    destruct (perform_aborted w op a) as [H|[[_ H]|[[H _]|[H _]]]];
      try congruence; auto.
  - intros H0 H1.
    destruct (perform_aborted w op a) as [H|[[H _]|[[_ H]|[_ H]]]];
      try congruence; auto.
  - intros r. apply abort_speaking_sets_aborted.
  - apply handle_tts_start_clears.
Qed.

(** C8.  The display's abort callback sets [aborted] outside SPEAKING.  On
    the started application in IDLE, with nothing playing and nothing
    queued, the callback sets [aborted], flushes the playback queue, pauses
    the wake-word detector and starts the abort thread; the thread sends an
    abort message to the session and schedules the return to IDLE; the
    drain that follows finds the state already IDLE, so no transition is
    made, no entry action runs, and the detector, paused by the callback,
    is not resumed.  The three callers of [abort_speaking] inside the
    orchestrator test the device state first and do nothing here: the
    manual-listen closure, the toggle closure and the wake-word handling
    leave [aborted] false on the same object. *)
Theorem C8_display_abort_while_idle :
  let a' := exec (abort_callback sample_world ;;
                  process_abort sample_world WAKE_WORD_DETECTED ;;
                  _process_scheduled_tasks sample_world) started_app in
  device_state started_app = IDLE
  /\ aborted started_app = false
  /\ aborted (exec (abort_callback sample_world) started_app) = true
  /\ aborted a' = true
  /\ device_state a' = IDLE
  /\ transitions (trace a') = []
  /\ submitted (trace a') = [SendAbortSpeaking WAKE_WORD_DETECTED]
  /\ In WakeWordPause (trace a')
  /\ ~ In WakeWordResume (trace a')
  /\ aborted (exec (_start_listening_impl sample_world) started_app) = false
  /\ aborted (exec (_toggle_chat_state_impl sample_world) started_app) = false
  /\ aborted (exec (_handle_wake_word_detected sample_world "hello")
                   started_app) = false.
Proof.
  cbv zeta. repeat split; try reflexivity.
  - vm_compute. tauto.
  - vm_compute. intuition discriminate.
Qed.

(** ** The scheduler under interleaving *)

Section SchedulerFacts.

Import Scheduler.

Variable T : Type.

Lemma step_conserved (s s' : State T) :
  step s s' -> conserved s -> conserved s'.
Proof.
  unfold conserved, batch.
  intros Hstep Hc. destruct Hstep; cbn in *.
  - rewrite Hc, <- !app_assoc. reflexivity.
  - exact Hc.
  - rewrite H in Hc. exact Hc.
  - rewrite H in Hc. exact Hc.
  - rewrite H in Hc. rewrite Hc. cbn. now rewrite app_nil_r.
  - rewrite H in Hc. rewrite Hc, <- !app_assoc. reflexivity.
  - rewrite H in Hc. exact Hc.
Qed.

Lemma step_wake_up_pending (s s' : State T) :
  step s s' -> wake_up_pending s -> wake_up_pending s'.
Proof.
  unfold wake_up_pending.
  intros Hstep Hw. destruct Hstep; cbn in *; intros Hq.
  - right. left. lia.
  - now left.
  - right. right. now left.
  - right. right. now right.
  - congruence.
  - destruct (Hw Hq) as [Hf|[Hf|[Hf|Hf]]]; try congruence; auto.
  - destruct (Hw Hq) as [Hf|[Hf|[Hf|Hf]]]; try congruence; auto.
Qed.

Lemma reachable_invariant (s : State T) :
  reachable s -> conserved s /\ wake_up_pending s.
Proof.
  induction 1 as [|s s' _ [IHc IHw] Hstep].
  - split; [reflexivity | intros Hq; now contradiction Hq].
  - split; [eapply step_conserved | eapply step_wake_up_pending]; eassumption.
Qed.

(** A step runs at most one task, the head of the batch. *)
Lemma step_executed (s s' : State T) :
  step s s' ->
  executed s' = executed s
  \/ exists task rest,
       phase s = Draining (task :: rest)
       /\ executed s' = executed s ++ [task]
       /\ phase s' = Draining rest.
Proof.
  intros Hstep. destruct Hstep; cbn; auto.
  right. now exists task, rest.
Qed.

Lemma run_all_reachable (raises : T -> bool) (tasks : list T) (s : State T) :
  phase s = Draining tasks -> reachable s ->
  reachable (run_all raises tasks s).
Proof.
  revert s. induction tasks as [|task rest IH]; intros s Hp Hr; cbn.
  - exact Hr.
  - apply IH; [reflexivity|].
    eapply reach_step; [exact Hr | now apply step_run].
Qed.

Lemma run_all_fields (raises : T -> bool) (tasks : list T) (s : State T) :
  phase s = Draining tasks ->
  main_tasks (run_all raises tasks s) = main_tasks s
  /\ schedule_event (run_all raises tasks s) = schedule_event s
  /\ setters (run_all raises tasks s) = setters s
  /\ phase (run_all raises tasks s) = Draining []
  /\ scheduled (run_all raises tasks s) = scheduled s
  /\ executed (run_all raises tasks s) = executed s ++ tasks
  /\ failed (run_all raises tasks s) = failed s ++ filter raises tasks.
Proof.
  revert s. induction tasks as [|task rest IH]; intros s Hp; cbn.
  - rewrite !app_nil_r. now repeat split.
  - destruct (IH (run (raises task) task rest s) eq_refl)
      as (H1 & H2 & H3 & H4 & H5 & H6 & H7).
    rewrite H1, H2, H3, H4, H5, H6, H7. cbn.
    rewrite <- !app_assoc. repeat split.
    destruct (raises task); cbn; now rewrite <- ?app_assoc.
Qed.

(** A whole turn of the dispatch loop is a sequence of steps. *)
Lemma tick_is_steps (raises : T -> bool) (s : State T) :
  phase s = Polling -> schedule_event s = true ->
  tick raises s =
  done (run_all raises (main_tasks s) (swap (clear (see s)))).
Proof.
  intros Hp Hf. unfold tick. rewrite Hp, Hf.
  destruct (run_all_fields raises (main_tasks s) (swap (clear (see s)))
              eq_refl) as (H1 & H2 & H3 & H4 & H5 & H6 & H7).
  unfold done. rewrite H1, H2, H3, H5, H6, H7. reflexivity.
Qed.

Lemma tick_reachable (raises : T -> bool) (s : State T) :
  reachable s -> reachable (tick raises s).
Proof.
  intros Hr. destruct (phase s) eqn:Hp;
    try (unfold tick; rewrite Hp; exact Hr).
  destruct (schedule_event s) eqn:Hf;
    [|unfold tick; rewrite Hp, Hf; exact Hr].
  rewrite tick_is_steps by assumption.
  assert (R1 : reachable (see s))
    by (eapply reach_step; [exact Hr | now apply step_see]).
  assert (R2 : reachable (clear (see s)))
    by (eapply reach_step; [exact R1 | now apply step_clear]).
  assert (R3 : reachable (swap (clear (see s))))
    by (eapply reach_step; [exact R2 | now apply step_swap]).
  pose proof (run_all_reachable raises (main_tasks s)
                (swap (clear (see s))) eq_refl R3) as R4.
  eapply reach_step; [exact R4|]. apply step_done.
  now destruct (run_all_fields raises (main_tasks s) (swap (clear (see s)))
                  eq_refl) as (_ & _ & _ & H4 & _).
Qed.

(** Once the producers are done, one turn of the dispatch loop leaves
    nothing behind. *)
Lemma quiescent_tick (raises : T -> bool) (s : State T) :
  reachable s -> phase s = Polling -> setters s = 0 ->
  executed (tick raises s) = scheduled s
  /\ main_tasks (tick raises s) = []
  /\ batch (tick raises s) = []
  /\ executed (tick raises s) = executed s ++ main_tasks s.
Proof.
  intros Hr Hp Hs.
  destruct (reachable_invariant s Hr) as [Hc Hw].
  unfold conserved, batch in Hc. rewrite Hp in Hc. cbn in Hc.
  unfold tick, batch. rewrite Hp.
  destruct (schedule_event s) eqn:Hf; cbn.
  - now repeat split.
  - rewrite Hp. destruct (main_tasks s) as [|t q] eqn:Hq.
    + rewrite app_nil_r in *. now repeat split.
    + exfalso. unfold wake_up_pending in Hw. rewrite Hq in Hw.
      destruct Hw as [H|[H|[H|H]]]; try congruence; try lia; discriminate.
Qed.

End SchedulerFacts.

(** The sequential [schedule] is an append followed by a set, and the
    sequential drain starts with a swap. *)
Lemma schedule_is_append_then_set (callback : Task) (a : App) :
  scheduler_view (exec (schedule callback) a) =
  Scheduler.mkState Task
    (Scheduler.main_tasks
       (Scheduler.set (Scheduler.append callback (scheduler_view a))))
    (Scheduler.schedule_event
       (Scheduler.set (Scheduler.append callback (scheduler_view a))))
    0 Scheduler.Polling [] [] [].
Proof. reflexivity. Qed.

Lemma drain_starts_with_swap (w : World) (a : App) :
  exec (_process_scheduled_tasks w) a =
  exec (for_each (Scheduler.batch (Scheduler.swap (scheduler_view a)))
                 (try_task w))
    (with_trace
       (trace a ++ [Log DEBUG "Processing %d scheduled tasks"
                        [ANat (List.length (main_tasks a))]])
       (with_main_tasks
          (Scheduler.main_tasks (Scheduler.swap (scheduler_view a))) a)).
Proof. apply drain_spec. Qed.

(** C2. In every state that the producers ([schedule], from any thread)
    and the dispatch loop can reach by interleaving their steps, each
    callback appended so far is in exactly one place and in append order:
    already run, in the batch being drained, or still queued; so none is
    lost and none runs twice, and tasks run in insertion order.  A queued
    callback always has a wake-up pending.  The swap takes the whole queue
    and empties it in one step under the lock; a callback appended during a
    drain goes to the queue, not to the batch, and so runs on a later turn;
    a step runs at most the head of the batch.  Once no producer is inside
    [schedule], one turn of the loop runs every callback scheduled so far. *)
Theorem C2_scheduled_callbacks_run_exactly_once
  (T : Type) (s : Scheduler.State T) :
  Scheduler.reachable s ->
  Scheduler.scheduled s =
    Scheduler.executed s ++ Scheduler.batch s ++ Scheduler.main_tasks s
  /\ (Scheduler.main_tasks s <> [] ->
      Scheduler.schedule_event s = true \/ 0 < Scheduler.setters s
      \/ Scheduler.phase s = Scheduler.Seen
      \/ Scheduler.phase s = Scheduler.Cleared)
  /\ (Scheduler.batch (Scheduler.swap s) = Scheduler.main_tasks s
      /\ Scheduler.main_tasks (Scheduler.swap s) = [])
  /\ (forall callback,
        Scheduler.batch (Scheduler.append callback s) = Scheduler.batch s
        /\ Scheduler.main_tasks (Scheduler.append callback s) =
           Scheduler.main_tasks s ++ [callback])
  /\ (forall s', Scheduler.step s s' ->
        Scheduler.executed s' = Scheduler.executed s
        \/ exists task rest,
             Scheduler.phase s = Scheduler.Draining (task :: rest)
             /\ Scheduler.executed s' = Scheduler.executed s ++ [task]
             /\ Scheduler.phase s' = Scheduler.Draining rest)
  /\ (forall raises,
        Scheduler.phase s = Scheduler.Polling -> Scheduler.setters s = 0 ->
        let s' := Scheduler.tick raises s in
        Scheduler.reachable s'
        /\ Scheduler.executed s' = Scheduler.scheduled s
        /\ Scheduler.main_tasks s' = []
        /\ Scheduler.batch s' = []
        /\ Scheduler.executed s' =
           Scheduler.executed s ++ Scheduler.main_tasks s).
Proof.
  intros Hr. destruct (reachable_invariant T s Hr) as [Hc Hw].
  split; [exact Hc|]. split; [exact Hw|]. split; [now split|].
  split; [intros cb; now split|]. split; [apply step_executed|].
  intros raises Hp Hs s'. split; [now apply tick_reachable|].
  now apply quiescent_tick.
Qed.

(** ** The theorems at concrete inputs *)

Lemma C1_witness :
  (IDLE = device_state started_app
   /\ set_device_state sample_world IDLE started_app = (tt, started_app))
  /\ (LISTENING <> device_state started_app
      /\ device_state
           (exec (set_device_state sample_world LISTENING) started_app) =
         LISTENING).
Proof.
  split.
  - split; [reflexivity|].
    apply (proj1 (C1_set_device_state_idempotent_or_notifying
                    sample_world started_app IDLE)).
    reflexivity.
  - split; [discriminate|].
    destruct (proj2 (C1_set_device_state_idempotent_or_notifying
                       sample_world started_app LISTENING))
      as (entry & notes & _ & _ & H & _); [discriminate | exact H].
Defined.

Lemma C2_witness :
  Scheduler.reachable (Scheduler.append 7 Scheduler.init)
  /\ Scheduler.scheduled (Scheduler.append 7 Scheduler.init) =
     Scheduler.executed (Scheduler.append 7 Scheduler.init) ++
     Scheduler.batch (Scheduler.append 7 Scheduler.init) ++
     Scheduler.main_tasks (Scheduler.append 7 Scheduler.init).
Proof.
  assert (H : Scheduler.reachable (Scheduler.append 7 Scheduler.init)).
  { eapply Scheduler.reach_step;
      [apply Scheduler.reach_init | apply Scheduler.step_append]. }
  split; [exact H|].
  exact (proj1 (C2_scheduled_callbacks_run_exactly_once nat _ H)).
Defined.

Lemma C3_witness :
  is_set AUDIO_OUTPUT_READY_EVENT
    (with_event AUDIO_OUTPUT_READY_EVENT true speaking_app) = true
  /\ exec (process_event sample_world AUDIO_OUTPUT_READY_EVENT)
       (with_event AUDIO_OUTPUT_READY_EVENT true speaking_app) =
     exec (handle_event sample_world AUDIO_OUTPUT_READY_EVENT)
       (with_trace
          [Log DEBUG "Processing event: %s" [AEvent AUDIO_OUTPUT_READY_EVENT]]
          speaking_app).
Proof.
  split; [reflexivity|].
  destruct (C3_main_loop_tick_consumes_edges sample_world
              (with_event AUDIO_OUTPUT_READY_EVENT true speaking_app))
    as (_ & H & _).
  exact (proj2 (H AUDIO_OUTPUT_READY_EVENT eq_refl)).
Defined.

Lemma C4_witness :
  (aborted speaking_app = false /\ device_state speaking_app = SPEAKING
   /\ main_tasks speaking_app = [])
  /\ exists l,
       trace (exec (two_aborts sample_world WAKE_WORD_DETECTED NONE 0)
                speaking_app) = trace speaking_app ++ l
       /\ control_messages l = [SendAbortSpeaking WAKE_WORD_DETECTED]
       /\ threads_started l = [ThProcessAbort WAKE_WORD_DETECTED]
       /\ transitions l = [IDLE]
       /\ device_state
            (exec (two_aborts sample_world WAKE_WORD_DETECTED NONE 0)
               speaking_app) = IDLE
       /\ aborted
            (exec (two_aborts sample_world WAKE_WORD_DETECTED NONE 0)
               speaking_app) = true.
Proof.
  split; [repeat split|].
  apply (proj2 (C4_abort_speaking_idempotent sample_world
                  WAKE_WORD_DETECTED NONE 0 speaking_app)); reflexivity.
Defined.

Lemma C5_witness :
  aborted speaking_app = false
  /\ aborted (exec (abort_speaking timeout_world NONE) speaking_app) = true
  /\ is_tts_playing (exec (abort_speaking timeout_world NONE) speaking_app) =
     false
  /\ before CodecClearAudioQueue (Submit (SendAbortSpeaking NONE))
       (trace (exec (abort_then_process timeout_world NONE) speaking_app)).
Proof.
  split; [reflexivity|].
  destruct (C5_abort_speaking_flushes_before_sending timeout_world NONE
              speaking_app eq_refl)
    as (pause & report & again & _ & _ & H1 & H2 & _ & _ & _ & _ & _ & H3).
  split; [exact H1|]. split; [exact H2|]. apply H3. reflexivity.
Defined.

Lemma C6_witness :
  (audio_output_ready_event speaking_app = false
   /\ audio_output_ready_event
        (exec (output_trigger_tick sample_world) speaking_app) = true)
  /\ device_state speaking_app = SPEAKING
  /\ audio_codec speaking_app = true
  /\ codec_output_stream sample_world (trace speaking_app) = true
  /\ exists t,
       audio_decode_queue_empty sample_world (trace speaking_app ++ t) = false.
Proof.
  split; [split; reflexivity|].
  apply (proj1 (C6_output_trigger_sets_flag_only_when_speaking
                  sample_world speaking_app)); reflexivity.
Defined.

Lemma C7_witness :
  (device_state started_app = IDLE /\ protocol started_app = true
   /\ main_tasks started_app = [])
  /\ device_state
       (exec (start_listening_then_drain sample_world) started_app) =
     LISTENING
  /\ device_state
       (exec (start_listening_then_drain timeout_world) started_app) = IDLE.
Proof.
  split; [repeat split|]. split.
  - destruct (proj2 (C7_manual_start_listening sample_world started_app)
                eq_refl eq_refl eq_refl) as (l & _ & _ & _ & _ & Hok).
    destruct Hok as (_ & H & _);
      [right; reflexivity | right; reflexivity | exact H].
  - destruct (proj2 (C7_manual_start_listening timeout_world started_app)
                eq_refl eq_refl eq_refl) as (l & _ & _ & _ & Hfail & _).
    destruct Hfail as (_ & H & _);
      [reflexivity | discriminate | exact H].
Defined.

Lemma C9_witness :
  keep_listening
    (exec (_on_network_error sample_world (Some "connection lost"))
       listening_app) = false
  /\ device_state
       (exec (_process_scheduled_tasks sample_world)
          (exec (_on_network_error sample_world (Some "connection lost"))
             listening_app)) = IDLE.
Proof.
  destruct (C9_network_error_response sample_world listening_app
              (Some "connection lost")) as (H1 & _ & _ & _ & H2 & _).
  split; [exact H1 | exact H2].
Defined.

Lemma C10_witness :
  (device_state started_app <> SPEAKING
   /\ _handle_output_audio started_app = (tt, started_app))
  /\ (device_state started_app <> LISTENING
      /\ _handle_input_audio sample_world started_app = (tt, started_app)).
Proof.
  destruct (C10_handlers_recheck_device_state sample_world started_app)
    as (H1 & H2 & _).
  split; (split; [discriminate|]).
  - apply H1. discriminate.
  - apply H2. discriminate.
Defined.

(** * Further properties *)

(** ** Tactics for the further operations *)

Ltac open_app a :=
  destruct a as [ds kl ab ct ce le ac tp rn mt pr cbs se ai ao dp wd tr].

Ltac open_more :=
  cbv beta iota zeta delta
    [_get_status_text _on_mode_changed
     delayed_state_change close_audio_channel run_thread input_trigger_tick
     set_is_tts_playing schedule on_state_changed _get_current_emotion
     set_emotion set_chat_message alert _update_iot_states
     wake_word_paused wake_word_running input_paused entry_actions notify
     abort_speaking process_abort _start_listening_impl
     start_listening _stop_listening_impl stop_listening
     toggle_chat_state _toggle_chat_state_impl _handle_tts_start
     _on_wake_word_detected _handle_wake_word_detected
     _handle_input_audio _handle_output_audio
     handle_event process_event output_trigger_tick
     _on_network_error _on_incoming_audio abort_callback
     exec bind get modify emit ask ret pass when fst snd].

Ltac by_cases_more := open_more; cbn; repeat (split_leaf; cbn).

Lemma scheduled_tasks_app (t1 t2 : Trace) :
  scheduled_tasks (t1 ++ t2) = scheduled_tasks t1 ++ scheduled_tasks t2.
Proof. apply flat_map_app. Qed.

Lemma sleeps_app (t1 t2 : Trace) : sleeps (t1 ++ t2) = sleeps t1 ++ sleeps t2.
Proof. apply flat_map_app. Qed.

Lemma status_updates_app (t1 t2 : Trace) :
  status_updates (t1 ++ t2) = status_updates t1 ++ status_updates t2.
Proof. apply flat_map_app. Qed.

Lemma callback_errors_app (t1 t2 : Trace) :
  callback_errors (t1 ++ t2) = callback_errors t1 ++ callback_errors t2.
Proof. apply flat_map_app. Qed.

Lemma wake_word_calls_app (t1 t2 : Trace) :
  wake_word_calls (t1 ++ t2) = wake_word_calls t1 ++ wake_word_calls t2.
Proof. apply flat_map_app. Qed.

(** ** The state machine, continued *)

Lemma set_device_state_reaches (w : World) (s : DeviceState) (a : App) :
  device_state (exec (set_device_state w s) a) = s.
Proof.
  destruct (set_device_state_summary w s a) as (l & _ & Hs & _). exact Hs.
Qed.


Lemma set_device_state_prompt (w : World) (s : DeviceState) :
  sat prompt_frame (set_device_state w s).
Proof. unfold prompt_frame. sat_walk side_basic. Qed.

Lemma trace_extension_unique (a a' : App) (l l' : Trace) :
  trace a' = trace a ++ l -> trace a' = trace a ++ l' -> l' = l.
Proof. intros E E'. rewrite E in E'. now apply app_inv_head in E'. Qed.


(** What the entry actions of each state do to the display, the wake-word
    detector, the audio input and the IoT states. *)
Lemma entry_actions_policy (w : World) (s : DeviceState) (a : App) :
  exists l,
    trace (exec (entry_actions w s) a) = trace a ++ l
    /\ status_updates l = [fst (_get_status_text (with_device_state s a))]
    /\ (wake_word_calls l = []
        \/ wake_word_calls l = [WakeWordPause] /\ s = LISTENING
        \/ wake_word_calls l = [WakeWordResume] /\ (s = IDLE \/ s = SPEAKING))
    /\ (In CodecResumeInput l -> s = IDLE \/ s = LISTENING)
    /\ (forall d, In (ThingManagerGetStatesJson d) l ->
        s = LISTENING /\ d = Some true)
    /\ (s = CONNECTING -> l = [DisplayUpdateStatus "Connecting..."]).
Proof.
  open_app a. cbn [trace].
  destruct s; by_cases_more; rewrite <- ?app_assoc; cbn.
  all: eexists; split; [reflexivity|]; cbn.
  all: repeat split; try discriminate; try tauto.
  all: try (intros d Hd; intuition (try discriminate; try congruence)).
  all: try (intuition (try discriminate; try congruence)).
Qed.

Lemma set_device_state_trace (w : World) (a : App) (next : DeviceState) :
  next <> device_state a ->
  let a1 := with_trace (trace a ++ [AssignDeviceState next])
                       (with_device_state next a) in
  exists entry notes,
    trace (exec (entry_actions w next) a1) = trace a1 ++ entry
    /\ trace (exec (set_device_state w next) a) =
       trace a ++ [AssignDeviceState next] ++ entry ++ notes
    /\ Forall (notify_effect next) notes.
Proof.
  intros Hne a1.
  rewrite (set_device_state_changes w a next Hne). fold a1.
  destruct (entry_actions_frame w next a1)
    as (_ & _ & _ & _ & _ & _ & _ & _ & _ & entry & Et & _).
  set (a2 := exec (entry_actions w next) a1) in *.
  destruct (notify_loop w next (on_state_changed_callbacks a) a2)
    as (notes & En & _ & Fn).
  exists entry, notes. rewrite En. cbn [trace with_trace].
  repeat split; try assumption.
  rewrite Et. subst a1. cbn. now rewrite <- !app_assoc.
Qed.

Lemma notify_effect_quiet (s : DeviceState) (e : Effect) :
  notify_effect s e ->
  silent pick_status e /\ silent pick_wake_word e
  /\ e <> CodecResumeInput /\ forall d, e <> ThingManagerGetStatesJson d.
Proof.
  destruct e; cbn; try tauto; intros _; repeat split; try discriminate.
Qed.

Lemma notes_quiet (s : DeviceState) (notes : Trace) :
  Forall (notify_effect s) notes ->
  status_updates notes = [] /\ wake_word_calls notes = []
  /\ ~ In CodecResumeInput notes
  /\ forall d, ~ In (ThingManagerGetStatesJson d) notes.
Proof.
  intros F. repeat split.
  - apply silent_trace. revert F. apply Forall_weaken.
    intros e He. now apply notify_effect_quiet in He.
  - apply silent_trace. revert F. apply Forall_weaken.
    intros e He. now apply notify_effect_quiet in He.
  - intros Hin. rewrite Forall_forall in F. apply F in Hin.
    apply notify_effect_quiet in Hin. tauto.
  - intros d Hin. rewrite Forall_forall in F. apply F in Hin.
    apply notify_effect_quiet in Hin. destruct Hin as (_ & _ & _ & H).
    now apply (H d).
Qed.


Lemma status_text_of_state (a b : App) :
  device_state a = device_state b ->
  fst (_get_status_text a) = fst (_get_status_text b).
Proof. intros H. unfold _get_status_text, bind, get, ret. cbn. now rewrite H. Qed.



(** ** The emotion cache *)



(** ** Stopping and toggling *)

Lemma stop_listening_impl_listening (w : World) (a : App) :
  device_state a = LISTENING ->
  exec (_stop_listening_impl w) a =
  exec (set_device_state w IDLE)
       (with_trace (trace a ++ [Submit SendStopListening]) a).
Proof.
  intros Hs. unfold _stop_listening_impl. rewrite exec_bind.
  cbn [get fst snd exec]. rewrite Hs. cbn [DeviceState_eqb when].
  rewrite exec_bind. reflexivity.
Qed.





(** ** Speech start, wake word, audio frames *)

Lemma handle_tts_start_summary (a : App) :
  let a' := exec _handle_tts_start a in
  let enters := DeviceState_eqb (device_state a) IDLE
                || DeviceState_eqb (device_state a) LISTENING in
  aborted a' = false
  /\ is_tts_playing a' = true
  /\ device_state a' = device_state a
  /\ keep_listening a' = keep_listening a
  /\ main_tasks a' =
     main_tasks a ++ (if enters then [TSetDeviceState SPEAKING] else [])
  /\ exists l,
       trace a' = trace a ++ l
       /\ In CodecClearAudioQueue l
       /\ transitions l = []
       /\ submitted l = []
       /\ threads_started l = [].
Proof.
  open_app a.
  cbn [device_state keep_listening trace main_tasks].
  destruct ds; by_cases_more; rewrite <- ?app_assoc; cbn.
  all: repeat split; try reflexivity; try (now rewrite app_nil_r).
  all: eexists; split; [reflexivity|]; cbn; repeat split; tauto.
Qed.









(** ** Frames of the further operations *)

(** Decompose a program along its structure, as [sat_walk] does, with the
    further operations; [atom] closes the calls the walk is not to open. *)
Ltac sat_step atom side :=
  first
    [ progress intros
    | solve [typeclasses eauto]
    | progress cbv beta iota zeta delta
        [_get_status_text _on_mode_changed
         delayed_state_change connect_and_listen close_audio_channel
         run_thread input_trigger_tick
         set_is_tts_playing on_state_changed _get_current_emotion
         set_emotion set_chat_message alert _update_iot_states
         wake_word_paused wake_word_running input_paused entry_actions notify
         set_device_state abort_speaking process_abort _start_listening_impl
         start_listening _stop_listening_impl stop_listening
         toggle_chat_state _toggle_chat_state_impl _handle_tts_start
         _on_wake_word_detected _handle_wake_word_detected run_task try_task
         _process_scheduled_tasks _handle_input_audio _handle_output_audio
         handle_event output_trigger_tick
         _on_network_error _on_incoming_audio abort_callback perform]
    | atom
    | apply sat_pass
    | apply sat_ret
    | apply sat_get
    | apply sat_ask
    | apply sat_bind
    | apply sat_when
    | apply sat_for_each
    | apply sat_emit; intros; solve [side]
    | apply sat_modify; intros; solve [side]
    | match goal with
      | |- sat _ (match ?x with _ => _ end) => destruct x
      end ].

Ltac sat_more atom side := repeat sat_step atom side.

Ltac open_schedule := progress cbv beta iota zeta delta [schedule].

Lemma wait_for_playback_sat (R : App -> App -> Prop) `{PreOrder App R}
  (w : World) (n : nat) :
  (forall e a, R a (with_trace (trace a ++ [e]) a)) ->
  sat R (wait_for_playback w n).
Proof.
  intros He. induction n as [|n IH]; cbn [wait_for_playback].
  - sat_more fail ltac:(apply He).
  - sat_more ltac:(exact IH) ltac:(apply He).
Qed.

(** ** The queue and its flag *)

#[local] Instance keeps_flagged_preorder : PreOrder keeps_flagged.
Proof.
  split.
  - intros a H. exact H.
  - intros a b c H1 H2 H. apply H2, H1, H.
Qed.

Lemma schedule_flagged (t : Task) : sat keeps_flagged (schedule t).
Proof.
  intros a _ _. unfold schedule, exec, bind, emit, modify. reflexivity.
Qed.

Ltac side_flagged :=
  unfold keeps_flagged, queue_flagged; cbn; intros;
  first [assumption | congruence | tauto | auto].

Ltac atom_flagged :=
  idtac;
  match goal with
  | |- sat _ (schedule _) => apply schedule_flagged
  | |- sat _ (wait_for_playback _ _) =>
      apply wait_for_playback_sat;
      [typeclasses eauto | intros; solve [side_flagged]]
  end.

Lemma perform_flagged (w : World) (op : Operation) :
  sat keeps_flagged (perform w op).
Proof. destruct op as [[]| | | | | | | | | | | |]; sat_more atom_flagged side_flagged. Qed.

Lemma run_thread_flagged (w : World) (p : Platform) (body : ThreadBody) :
  sat keeps_flagged (run_thread w p body).
Proof. destruct body; sat_more atom_flagged side_flagged. Qed.

Lemma further_operations_flagged (w : World) (p : Platform) (b : bool) :
  sat keeps_flagged (delayed_state_change w)
  /\ sat keeps_flagged (input_trigger_tick p)
  /\ sat keeps_flagged (_on_mode_changed b).
Proof. repeat split; sat_more atom_flagged side_flagged. Qed.

Lemma drain_flagged (w : World) (a : App) :
  queue_flagged (exec (_process_scheduled_tasks w) a).
Proof.
  rewrite drain_spec.
  assert (Hs : sat keeps_flagged (for_each (main_tasks a) (try_task w))).
  { sat_more atom_flagged side_flagged. }
  apply Hs. intros H. now cbn in H.
Qed.

Lemma process_event_flagged (w : World) (et : EventType) (a : App) :
  queue_flagged a -> queue_flagged (exec (process_event w et) a).
Proof.
  intros Ha. rewrite process_event_spec.
  destruct (is_set et a) eqn:E; [|exact Ha].
  destruct et; cbn [handle_event].
  - apply drain_flagged.
  - assert (Hs : sat keeps_flagged (_handle_input_audio w))
      by sat_more atom_flagged side_flagged.
    apply Hs. exact Ha.
  - assert (Hs : sat keeps_flagged _handle_output_audio)
      by sat_more atom_flagged side_flagged.
    apply Hs. exact Ha.
Qed.

Lemma main_loop_tick_flagged (w : World) (a : App) :
  queue_flagged a -> queue_flagged (exec (main_loop_tick w) a).
Proof.
  intros Ha. unfold main_loop_tick, events_order. rewrite exec_bind.
  cbn [for_each]. rewrite !exec_bind.
  cbn [pass ret exec snd fst emit modify].
  unfold queue_flagged. cbn [main_tasks schedule_event with_trace].
  apply process_event_flagged, process_event_flagged, process_event_flagged.
  exact Ha.
Qed.



(** ** Who assigns the device state *)

Ltac atom_wait side :=
  idtac;
  match goal with
  | |- sat _ (wait_for_playback _ _) =>
      apply wait_for_playback_sat;
      [typeclasses eauto | intros; solve [side]]
  end.

Lemma perform_scheduling (w : World) (op : Operation) :
  assigns_device_state op = false -> sat scheduling_frame (perform w op).
Proof.
  unfold scheduling_frame.
  destruct op as [[]| | | | | | | | | | | |]; cbn [assigns_device_state];
    intros Hop; try discriminate Hop; clear Hop;
    sat_more open_schedule side_basic.
Qed.

Lemma further_operations_scheduling
  (w : World) (p : Platform) (b : bool) :
  sat scheduling_frame (close_audio_channel w p)
  /\ sat scheduling_frame (delayed_state_change w)
  /\ sat scheduling_frame (input_trigger_tick p)
  /\ sat scheduling_frame (_on_mode_changed b).
Proof.
  unfold scheduling_frame.
  repeat split;
    sat_more ltac:(first [open_schedule | atom_wait side_basic]) side_basic.
Qed.

Lemma scheduling_frame_reading (m : M unit) (a : App) :
  sat scheduling_frame m ->
  device_state (exec m a) = device_state a
  /\ exists l, trace (exec m a) = trace a ++ l /\ transitions l = [].
Proof.
  intros Hm. destruct (Hm a) as (Hs & l & El & Fl). split; [exact Hs|].
  exists l. split; [exact El|]. now apply silent_trace.
Qed.



(** ** The dialogue mode *)


(** ** The end of a reply *)

Lemma wait_for_playback_trace (w : World) (n : nat) (a : App) :
  exists k,
    k <= n
    /\ exec (wait_for_playback w n) a =
       with_trace (trace a ++ repeat (Sleep 100) k) a.
Proof.
  revert a. induction n as [|n IH]; intros a; cbn [wait_for_playback].
  - exists 0. split; [lia|]. unfold exec, bind, ask. cbn.
    destruct (audio_decode_queue_empty w (trace a)); cbn;
      rewrite app_nil_r; now destruct a.
  - unfold exec, bind, ask. cbn.
    destruct (audio_decode_queue_empty w (trace a)); cbn.
    + exists 0. split; [lia|]. cbn. rewrite app_nil_r. now destruct a.
    + destruct (IH (with_trace (trace a ++ [Sleep 100]) a)) as (k & Hk & E).
      exists (S k). split; [lia|].
      unfold exec in E. rewrite E. cbn. now rewrite <- app_assoc.
Qed.

Lemma sleeps_repeat (ms : Z) (k : nat) :
  sleeps (repeat (Sleep ms) k) = repeat ms k.
Proof. induction k as [|k IH]; cbn; [reflexivity | now rewrite <- IH]. Qed.

Lemma sum_repeat (ms : Z) (k : nat) :
  fold_right Z.add 0%Z (repeat ms k) = (ms * Z.of_nat k)%Z.
Proof. induction k as [|k IH]; cbn [repeat fold_right]; [lia | rewrite IH; lia]. Qed.

Lemma projection_repeat_sleep {A : Type} (pick : Effect -> list A)
  (ms : Z) (k : nat) :
  pick (Sleep ms) = [] -> flat_map pick (repeat (Sleep ms) k) = [].
Proof.
  intros H. induction k as [|k IH]; cbn; [reflexivity | now rewrite H, IH].
Qed.

Lemma time_asleep_app (t1 t2 : Trace) :
  time_asleep (t1 ++ t2) = (time_asleep t1 + time_asleep t2)%Z.
Proof.
  unfold time_asleep. rewrite sleeps_app.
  induction (sleeps t1) as [|x l IH]; cbn; [reflexivity | rewrite IH; lia].
Qed.

(** What the wait of [delayed_state_change] adds to the trace: pauses of
    100 ms, 30 at most. *)
Lemma wait_for_playback_bounded (w : World) (a : App) :
  exists waits,
    exec (wait_for_playback w max_wait_attempts) a =
    with_trace (trace a ++ waits) a
    /\ (time_asleep waits <= 3000)%Z
    /\ scheduled_tasks waits = []
    /\ submitted waits = []
    /\ threads_started waits = []
    /\ awaited waits = []
    /\ transitions waits = [].
Proof.
  destruct (wait_for_playback_trace w max_wait_attempts a) as (k & Hk & E).
  unfold max_wait_attempts in Hk.
  exists (repeat (Sleep 100) k). split; [exact E|]. split.
  - unfold time_asleep. rewrite sleeps_repeat, sum_repeat. lia.
  - repeat split; now apply projection_repeat_sleep.
Qed.

Lemma delayed_state_change_effect (w : World) (a : App) :
  let a' := exec (delayed_state_change w) a in
  let next := if keep_listening a then LISTENING else IDLE in
  is_tts_playing a' = false
  /\ keep_listening a' = keep_listening a
  /\ device_state a' = device_state a
  /\ aborted a' = aborted a
  /\ main_tasks a' = main_tasks a ++ [TSetDeviceState next]
  /\ schedule_event a' = true
  /\ exists l,
       trace a' = trace a ++ l
       /\ scheduled_tasks l = [TSetDeviceState next]
       /\ submitted l =
          (if keep_listening a then [SendStartListening AUTO_STOP] else [])
       /\ (time_asleep l <= 3500)%Z
       /\ (is_tts_playing a = false -> (time_asleep l <= 3000)%Z)
       /\ threads_started l = []
       /\ awaited l = []
       /\ transitions l = [].
Proof.
  intros a' next. subst a' next.
  unfold delayed_state_change. rewrite exec_bind.
  destruct (wait_for_playback_bounded w a)
    as (waits & E & Hsum & Hsch & Hsub & Hthr & Haw & Htr).
  rewrite E. clear E.
  open_app a.
  cbn [is_tts_playing keep_listening device_state aborted main_tasks trace
       schedule_event with_trace].
  destruct tp, kl; by_cases_more; rewrite <- ?app_assoc; cbn.
  all: repeat split.
  all: eexists; split; [reflexivity|].
  all: rewrite ?scheduled_tasks_app, ?submitted_app, ?threads_started_app,
         ?awaited_app, ?transitions_app, ?time_asleep_app,
         ?Hsch, ?Hsub, ?Hthr, ?Haw, ?Htr.
  all: cbn; repeat split; try lia; try discriminate.
Qed.



(** ** The closing thread *)


(** ** The audio input trigger *)

Lemma input_trigger_tick_not_listening (p : Platform) (a : App) :
  device_state a <> LISTENING ->
  exec (input_trigger_tick p) a =
  with_trace (trace a ++ [Sleep (Z.min 20 (Z.of_N (FRAME_DURATION p)))]) a.
Proof.
  open_app a. cbn [device_state]. intros Hs.
  destruct ds; try congruence; reflexivity.
Qed.

Lemma input_trigger_not_listening (p : Platform) (fuel : nat) (a : App) :
  device_state a <> LISTENING ->
  audio_input_ready_event (exec (_audio_input_event_trigger p fuel) a) =
  audio_input_ready_event a.
Proof.
  revert a. induction fuel as [|fuel IH]; intros a Hs.
  - reflexivity.
  - cbn [_audio_input_event_trigger]. rewrite exec_bind.
    cbn [get fst snd exec].
    destruct (running a); [|reflexivity].
    cbn [when].
    fold (exec (input_trigger_tick p ;; _audio_input_event_trigger p fuel) a).
    rewrite exec_bind, input_trigger_tick_not_listening by exact Hs.
    rewrite IH; [reflexivity | exact Hs].
Qed.

Lemma input_trigger_tick_effect (p : Platform) (a : App) :
  let a' := exec (input_trigger_tick p) a in
  device_state a' = device_state a
  /\ audio_output_ready_event a' = audio_output_ready_event a
  /\ main_tasks a' = main_tasks a
  /\ (audio_input_ready_event a = false ->
      audio_input_ready_event a' = true ->
      device_state a = LISTENING /\ audio_codec a = true
      /\ codec_input_stream p (trace a) = StreamIs true)
  /\ exists l,
       trace a' = trace a ++ l
       /\ (sleeps l = [Z.min 20 (Z.of_N (FRAME_DURATION p))]
           \/ sleeps l = [500%Z; Z.min 20 (Z.of_N (FRAME_DURATION p))])
       /\ submitted l = []
       /\ audio_io l = [].
Proof.
  open_app a.
  cbn [device_state audio_output_ready_event main_tasks
       audio_input_ready_event audio_codec trace].
  by_cases_more; rewrite <- ?app_assoc; cbn; bool_facts; subst.
  all: repeat split; try congruence; try discriminate.
  all: try (intros; congruence).
  all: eexists; split; [reflexivity|]; cbn; repeat split;
       try (now left); try (now right).
Qed.



(** ** The connection thread *)

Ltac open_connect :=
  cbv beta iota zeta delta
    [connect_and_listen alert schedule
     exec bind get modify emit ask ret pass when fst snd].

Lemma connect_and_listen_effect (w : World) (p : Platform) (a : App) :
  (forall c t, run_coroutine_threadsafe p c t = Returned tt) ->
  let a' := exec (connect_and_listen w p) a in
  exists l next,
    trace a' = trace a ++ l
    /\ main_tasks a' = main_tasks a ++ [TSetDeviceState next]
    /\ schedule_event a' = true
    /\ device_state a' = device_state a
    /\ transitions l = []
    /\ sleeps l = []
    /\ control_messages l = submitted l
    /\ threads_started l = []
    /\ (awaited l = [] \/ awaited l = [(OpenAudioChannel, 5000%Z)])
    /\ ((next = LISTENING /\ keep_listening a' = true
         /\ alerts l = []
         /\ (submitted l = [SendStartListening AUTO_STOP]
             \/ submitted l =
                [OpenAudioChannel; SendStartListening AUTO_STOP]))
        \/ (next = IDLE /\ keep_listening a' = keep_listening a
           /\ alerts l <> []
           /\ submitted l = [OpenAudioChannel]
           /\ awaited l = [(OpenAudioChannel, 5000%Z)]))
    /\ ((forall t, is_audio_channel_opened w t = true)
        \/ (forall t, future_result w OpenAudioChannel 5000 t = Returned true)
        -> next = LISTENING)
    /\ ((forall t, is_audio_channel_opened w t = false) ->
        (forall t, future_result w OpenAudioChannel 5000 t <> Returned true) ->
        next = IDLE).
Proof.
  intros Hsub. open_app a.
  cbn [trace main_tasks schedule_event device_state keep_listening].
  open_connect. cbn -[set_device_state].
  rewrite ?Hsub. cbn -[set_device_state].
  repeat (split_leaf; cbn -[set_device_state]; rewrite ?Hsub;
          cbn -[set_device_state]).
  all: rewrite <- ?app_assoc; cbn.
  all: eexists; eexists; split; [reflexivity|]; split; [reflexivity|]; cbn.
  all: repeat match goal with
       | |- _ /\ _ => split
       end; try reflexivity; try (now left); try (now right).
  all: try (left; repeat split; try reflexivity;
            first [now left | now right]).
  all: try (right; repeat split; try reflexivity; discriminate).
  all: try (intros [Ho | Hr];
            [ match goal with
              | H : is_audio_channel_opened _ _ = false |- _ =>
                  rewrite Ho in H; discriminate
              end
            | match goal with
              | H : future_result _ _ _ _ = _ |- _ =>
                  rewrite Hr in H; discriminate
              end ]).
  all: intros Ho Hr;
       first [ match goal with
               | H : is_audio_channel_opened _ _ = true |- _ =>
                   rewrite Ho in H; discriminate
               end
             | exfalso; eapply Hr; eassumption ].
Qed.

Lemma connect_and_listen_refused
  (w : World) (p : Platform) (a : App) (e : string) :
  is_audio_channel_opened w (trace a) = true ->
  run_coroutine_threadsafe p (SendStartListening AUTO_STOP)
    (trace a ++ [AssignKeepListening true;
                 Submit (SendStartListening AUTO_STOP)]) = Raised e ->
  exec (connect_and_listen w p) a =
  exec (alert "Error" ("Failed to start listening: " ++ e)%string)
    (exec (set_device_state w IDLE)
       (with_trace
          (trace a ++
           [AssignKeepListening true; Submit (SendStartListening AUTO_STOP);
            Log ERROR "Error occurred when starting listening: {}" [AStr e]])
          (with_keep_listening true a))).
Proof.
  open_app a. cbn [trace]. intros Ho Hs.
  cbv beta iota zeta delta
    [connect_and_listen exec bind get modify emit ask ret pass when fst snd].
  cbn -[set_device_state alert]. rewrite Ho. cbn -[set_device_state alert].
  rewrite <- !app_assoc. cbn -[set_device_state alert]. rewrite Hs.
  cbn -[set_device_state alert]. rewrite <- !app_assoc.
  cbn -[set_device_state alert].
  destruct (set_device_state w IDLE _) as [[] a1]. reflexivity.
Qed.

Lemma alert_effect (title message : string) (a : App) :
  exec (alert title message) a =
  with_trace
    (trace a ++
     Log WARNING "Warning: {}, {}" [AStr title; AStr message] ::
     (if display a then [DisplayUpdateText (title ++ ": " ++ message)%string]
      else []))
    a.
Proof.
  open_app a. by_cases_more; rewrite <- ?app_assoc; reflexivity.
Qed.



(** ** The auto-mode toggle, end to end *)

Lemma toggle_impl_from_idle (w : World) (a : App) :
  device_state a = IDLE -> protocol a = true ->
  exec (_toggle_chat_state_impl w) a =
  with_event SCHEDULE_EVENT true
    (with_main_tasks (main_tasks a ++ [TSetDeviceState CONNECTING])
       (with_trace
          (trace a ++ [Scheduled (TSetDeviceState CONNECTING);
                       ThreadStart ThConnectAndListen])
          a)).
Proof.
  open_app a. cbn [device_state protocol main_tasks trace]. intros -> ->.
  by_cases_more; rewrite <- ?app_assoc; reflexivity.
Qed.

Lemma last_cons {A : Type} (x d : A) (l : list A) :
  last (x :: l) d = last l x.
Proof.
  revert x d. induction l as [|y l IH]; intros x d; [reflexivity|].
  change (last (y :: l) d = last (y :: l) x). now rewrite !IH.
Qed.

(** A run of scheduled transitions: the last one wins; nothing else of the
    session changes. *)
Lemma run_transitions (w : World) (states : list DeviceState) (a : App) :
  let a' := exec (for_each (map TSetDeviceState states) (try_task w)) a in
  main_tasks a' = main_tasks a
  /\ keep_listening a' = keep_listening a
  /\ device_state a' = last states (device_state a)
  /\ exists l,
       trace a' = trace a ++ l
       /\ alerts l = [] /\ control_messages l = []
       /\ threads_started l = [].
Proof.
  revert a. induction states as [|s states IH]; intros a; cbn [map for_each].
  - cbn. repeat split. exists []. rewrite app_nil_r. repeat split.
  - rewrite exec_bind. rewrite try_task_set_device_state.
    destruct (set_device_state_frame w s a)
      as (Hq & _ & Hkl & _ & _ & _ & _ & _ & _ & l1 & E1 & F1).
    unfold keeps in *.
    pose proof (set_device_state_reaches w s a) as Hs.
    set (a1 := exec (set_device_state w s) a) in *.
    destruct (IH a1) as (Hq2 & Hkl2 & Hs2 & l2 & E2 & A2 & C2 & T2).
    cbv zeta. rewrite Hq2, Hkl2, Hs2, Hq, Hkl, Hs, last_cons.
    repeat split. exists (l1 ++ l2). repeat split.
    + now rewrite E2, E1, app_assoc.
    + rewrite alerts_app, A2, app_nil_r. projection_empty F1.
    + rewrite control_messages_app, C2, app_nil_r. projection_empty F1.
    + rewrite threads_started_app, T2, app_nil_r. projection_empty F1.
Qed.

Lemma drain_of_transitions (w : World) (states : list DeviceState) (a : App) :
  main_tasks a = map TSetDeviceState states ->
  let a' := exec (_process_scheduled_tasks w) a in
  main_tasks a' = []
  /\ keep_listening a' = keep_listening a
  /\ device_state a' = last states (device_state a)
  /\ exists l,
       trace a' = trace a ++ l
       /\ alerts l = [] /\ control_messages l = []
       /\ threads_started l = [].
Proof.
  intros Hq a'. subst a'. rewrite drain_spec, Hq.
  set (a0 := with_trace _ (with_main_tasks [] a)).
  destruct (run_transitions w states a0) as (H1 & H2 & H3 & l & E & A & C & T).
  rewrite H1, H2, H3. repeat split.
  exists (Log DEBUG "Processing %d scheduled tasks"
            [ANat (List.length (map TSetDeviceState states))] :: l).
  repeat split; try assumption.
  rewrite E. subst a0. cbn. now rewrite <- app_assoc.
Qed.

Lemma toggle_then_connect_flow
  (w : World) (p : Platform) (early : bool) (a : App) :
  (forall c t, run_coroutine_threadsafe p c t = Returned tt) ->
  device_state a = IDLE -> protocol a = true -> main_tasks a = [] ->
  let a' := exec (toggle_then_connect w p early) a in
  main_tasks a' = []
  /\ exists l,
       trace a' = trace a ++ l
       /\ threads_started l = [ThConnectAndListen]
       /\ ((device_state a' = LISTENING /\ keep_listening a' = true
            /\ alerts l = []
            /\ (control_messages l = [SendStartListening AUTO_STOP]
                \/ control_messages l =
                   [OpenAudioChannel; SendStartListening AUTO_STOP]))
           \/ (device_state a' = IDLE
               /\ keep_listening a' = keep_listening a
               /\ alerts l <> []
               /\ control_messages l = [OpenAudioChannel]))
       /\ ((forall t, is_audio_channel_opened w t = true)
           \/ (forall t,
               future_result w OpenAudioChannel 5000 t = Returned true)
           -> device_state a' = LISTENING)
       /\ ((forall t, is_audio_channel_opened w t = false) ->
           (forall t,
            future_result w OpenAudioChannel 5000 t <> Returned true) ->
           device_state a' = IDLE).
Proof.
  intros Hsub Hs Hp Hq a'. subst a'.
  unfold toggle_then_connect. rewrite !exec_bind.
  rewrite (toggle_impl_from_idle w a Hs Hp), Hq. cbn [app].
  set (a1 := with_event SCHEDULE_EVENT true _).
  assert (Q1 : main_tasks a1 = [TSetDeviceState CONNECTING]) by now subst a1.
  assert (K1 : keep_listening a1 = keep_listening a) by now subst a1.
  assert (T1 : trace a1 = trace a ++ [Scheduled (TSetDeviceState CONNECTING);
                                       ThreadStart ThConnectAndListen])
    by now subst a1.
  destruct early; cbn [when negb]; cbn [exec pass ret snd].
  - (* the thread runs before the drain *)
    destruct (connect_and_listen_effect w p a1 Hsub)
      as (l2 & next & E2 & Q2 & _ & _ & _ & _ & C2 & Th2 & _ & Hcase & Hok & Hko).
    set (a2 := exec (connect_and_listen w p) a1) in *.
    rewrite Q1 in Q2. cbn [app] in Q2.
    destruct (drain_of_transitions w [CONNECTING; next] a2 Q2)
      as (Q3 & K3 & S3 & l3 & E3 & A3 & C3 & Th3).
    set (a3 := exec (_process_scheduled_tasks w) a2) in *.
    destruct (drain_of_transitions w [] a3 Q3)
      as (Q4 & K4 & S4 & l4 & E4 & A4 & C4 & Th4).
    set (a4 := exec (_process_scheduled_tasks w) a3) in *.
    cbn [last] in S3, S4. rewrite S3 in S4.
    split; [exact Q4|].
    exists ([Scheduled (TSetDeviceState CONNECTING);
             ThreadStart ThConnectAndListen] ++ l2 ++ l3 ++ l4).
    split; [|split; [|split; [|split]]].
    + rewrite E4, E3, E2, T1. now rewrite <- !app_assoc.
    + rewrite !threads_started_app, Th2, Th3, Th4. reflexivity.
    + rewrite !alerts_app, !control_messages_app, A3, A4, C3, C4, !app_nil_r.
      cbn [alerts control_messages flat_map pick_alert pick_control app].
      fold (alerts l2). fold (control_messages l2).
      rewrite S4, K4, K3, C2.
      destruct Hcase as [(-> & Hk & Ha & Hc) | (-> & Hk & Ha & Hc & _)].
      * left. repeat split; assumption.
      * right. rewrite Hk, K1. repeat split; assumption.
    + intros H. rewrite S4. now apply Hok.
    + intros H H'. rewrite S4. now apply Hko.
  - (* the drain runs before the thread *)
    destruct (drain_of_transitions w [CONNECTING] a1 Q1)
      as (Q2 & K2 & S2 & l2 & E2 & A2 & C2 & Th2).
    set (a2 := exec (_process_scheduled_tasks w) a1) in *.
    destruct (connect_and_listen_effect w p a2 Hsub)
      as (l3 & next & E3 & Q3 & _ & _ & _ & _ & C3 & Th3 & _ & Hcase & Hok & Hko).
    set (a3 := exec (connect_and_listen w p) a2) in *.
    rewrite Q2 in Q3. cbn [app] in Q3.
    destruct (drain_of_transitions w [next] a3 Q3)
      as (Q4 & K4 & S4 & l4 & E4 & A4 & C4 & Th4).
    set (a4 := exec (_process_scheduled_tasks w) a3) in *.
    cbn [last] in S4.
    split; [exact Q4|].
    exists ([Scheduled (TSetDeviceState CONNECTING);
             ThreadStart ThConnectAndListen] ++ l2 ++ l3 ++ l4).
    split; [|split; [|split; [|split]]].
    + rewrite E4, E3, E2, T1. now rewrite <- !app_assoc.
    + rewrite !threads_started_app, Th2, Th3, Th4. reflexivity.
    + rewrite !alerts_app, !control_messages_app, A2, A4, C2, C4, !app_nil_r.
      cbn [alerts control_messages flat_map pick_alert pick_control app].
      fold (alerts l3). fold (control_messages l3).
      rewrite S4, K4, C3.
      destruct Hcase as [(-> & Hk & Ha & Hc) | (-> & Hk & Ha & Hc & _)].
      * left. repeat split; assumption.
      * right. rewrite Hk, K2, K1. repeat split; assumption.
    + intros H. rewrite S4. now apply Hok.
    + intros H H'. rewrite S4. now apply Hko.
Qed.



(** ** Subscribers that raise *)

Lemma notify_loop_errors (w : World) (s : DeviceState)
  (outcome : Callback -> Outcome unit) (l : list Callback) (a : App) :
  (forall cb t, callback_result w cb s t = outcome cb) ->
  exists notes,
    exec (for_each l (notify w s)) a = with_trace (trace a ++ notes) a
    /\ callback_calls notes = map (fun cb => (cb, s)) l
    /\ callback_errors notes =
       flat_map (fun cb => match outcome cb with
                           | Raised e => [e]
                           | Returned _ => []
                           end) l.
Proof.
  intros Ho. revert a. induction l as [|cb l IH]; intros a.
  - exists []. cbn. rewrite app_nil_r. now destruct a.
  - cbn [for_each]. rewrite exec_bind.
    set (a1 := exec (notify w s cb) a).
    assert (H1 : exists n1, a1 = with_trace (trace a ++ n1) a
                 /\ callback_calls n1 = [(cb, s)]
                 /\ callback_errors n1 =
                    match outcome cb with
                    | Raised e => [e]
                    | Returned _ => []
                    end).
    { subst a1. unfold notify, exec. rewrite !run_bind. cbn.
      rewrite Ho. destruct (outcome cb) as [u | e].
      - exists [CallbackCall cb s]. repeat split.
      - exists [CallbackCall cb s;
                Log ERROR "Error executing state change callback: {}"
                    [AStr e]].
        cbn. rewrite <- app_assoc. repeat split. }
    destruct H1 as (n1 & E1 & C1 & R1).
    destruct (IH a1) as (n2 & E2 & C2 & R2).
    exists (n1 ++ n2). split; [|split].
    + rewrite E2, E1. cbn. now rewrite app_assoc.
    + rewrite callback_calls_app, C1, C2. reflexivity.
    + rewrite callback_errors_app, R1, R2. reflexivity.
Qed.

Lemma entry_actions_no_callback_error (w : World) (s : DeviceState) :
  sat no_callback_error (entry_actions w s).
Proof. unfold no_callback_error. sat_walk side_basic. Qed.



(** * Properties of the displays *)

(** ** The volume *)





(** ** The command-line display *)





(** ** The mute button *)

Lemma gui_update_volume_effect
  (set_volume : Z -> list GuiDisplay.Call -> Outcome unit)
  (volume : Z) (g : GuiDisplay.Gui) :
  let g' := GuiDisplay.update_volume set_volume volume g in
  GuiDisplay.current_volume g' = volume
  /\ GuiDisplay.is_muted g' = GuiDisplay.is_muted g
  /\ GuiDisplay.pre_mute_volume g' = GuiDisplay.pre_mute_volume g
  /\ GuiDisplay.volume_control_available g' =
     GuiDisplay.volume_control_available g
  /\ GuiDisplay.volume_label g' = GuiDisplay.volume_label g
  /\ GuiDisplay.mute g' = GuiDisplay.mute g
  /\ exists t,
       GuiDisplay.calls g' = GuiDisplay.calls g ++ t
       /\ GuiDisplay.volumes_set t =
          (if GuiDisplay.volume_control_available g then [volume] else []).
Proof.
  destruct g as [cv im pm av vf vl mu t].
  unfold GuiDisplay.update_volume, GuiDisplay.with_calls. cbn.
  destruct av; [destruct (set_volume volume _)|]; destruct vl; cbn.
  all: repeat split.
  all: try (eexists; split; [rewrite <- ?app_assoc; reflexivity|];
            reflexivity).
  all: exists []; now rewrite app_nil_r.
Qed.


